(** * enviroSendData: sensor readings, uploads and the scheduler loop

    A shallow embedding of [enviroSendData.py].  The script reads an
    environmental sensor and a particulate sensor, formats the readings as
    dictionaries of strings, and posts them to an HTTP API on two timers.

    The embedding keeps the shape of the script:
    - Python floats are IEEE binary64 values ([spec_float] at precision 53);
    - dictionaries are finite maps from strings to strings;
    - the sensor drivers, the clock and the HTTP client are oracles that
      answer the n-th call made to them, possibly by raising;
    - every function of the script is a computation in a state-and-exception
      monad over the interpreter state (globals, call counters, event trace). *)

From Stdlib Require Import ZArith Lia Bool List.
From Stdlib Require Import Ascii String Decimal DecimalString DecimalZ.
From Stdlib Require Import Floats.SpecFloat.
From stdpp Require Import gmap strings.

Local Open Scope Z_scope.

(** ** Python numbers *)

Module PyNum.

(** A Python [float] is a binary64 number. *)
Definition float : Type := spec_float.
Definition prec : Z := 53.
Definition emax : Z := 1024.

(** The float nearest to [m * 2^e] (ties to even): how literals and
    converted integers are obtained. *)
Definition float_lit (m e : Z) : float := binary_normalize prec emax m e false.

Definition fsub (x y : float) : float := SFsub prec emax x y.
Definition fdiv (x y : float) : float := SFdiv prec emax x y.
(** [x > y] on floats; false as soon as one side is a NaN. *)
Definition fgt (x y : float) : bool := SFltb y x.

#[global] Arguments float_lit : simpl never.
#[global] Arguments fsub : simpl never.
#[global] Arguments fdiv : simpl never.
#[global] Arguments fgt : simpl never.

Definition is_finite (x : float) : bool :=
  match x with
  | S754_zero _ | S754_finite _ _ _ => true
  | S754_infinity _ | S754_nan => false
  end.

(** [str(n)] for an [int]. *)
Definition str_int (n : Z) : string := NilZero.string_of_int (Z.to_int n).

Definition digit_char (d : Z) : ascii := ascii_of_nat (48 + Z.to_nat d).

(** Magnitude of a finite float truncated toward zero: [m * 2^e] with the
    fractional bits dropped. *)
Definition trunc_mag (m : positive) (e : Z) : Z :=
  match e with
  | Zneg p => Zpos m / 2 ^ Zpos p
  | _ => Zpos m * 2 ^ e
  end.

(** Nearest integer to [num / den], ties to even ([0 <= num], [0 < den]). *)
Definition round_half_even (num den : Z) : Z :=
  let q := num / den in
  let r := num mod den in
  match 2 * r ?= den with
  | Lt => q
  | Gt => q + 1
  | Eq => if Z.even q then q else q + 1
  end.

(** [100 * m * 2^e] rounded to the nearest integer: the digits that the
    [.2f] presentation prints. *)
Definition hundredths (m : positive) (e : Z) : Z :=
  match e with
  | Zneg p => round_half_even (100 * Zpos m) (2 ^ Zpos p)
  | _ => 100 * Zpos m * 2 ^ e
  end.

(** Digits of the [.2f] presentation of [n / 100]. *)
Definition fixed2 (n : Z) : string :=
  str_int (n / 100) +:+
  String "." (String (digit_char (n mod 100 / 10)) (String (digit_char (n mod 10)) EmptyString)).

Fixpoint zeros (k : nat) : string :=
  match k with
  | O => EmptyString
  | S k' => String "0" (zeros k')
  end.

(** The [0] flag with width 5: zeros go between the sign and the digits. *)
Definition pad5 (neg : bool) (body : string) : string :=
  let sign := if neg then "-" else EmptyString in
  sign +:+ zeros (5 - String.length sign - String.length body) +:+ body.

(** ["{:05.2f}".format(x)] *)
Definition format_05_2f (x : float) : string :=
  match x with
  | S754_nan => pad5 false "nan"
  | S754_infinity s => pad5 s "inf"
  | S754_zero s => pad5 s (fixed2 0)
  | S754_finite s m e => pad5 s (fixed2 (hundredths m e))
  end.

#[global] Arguments str_int : simpl never.
#[global] Arguments format_05_2f : simpl never.

End PyNum.

Import PyNum.

(** ** Exceptions *)

(** The exception classes that the script names or that its collaborators
    raise: Python built-ins, the [pms5003] driver errors and the
    [requests.exceptions] family.  [KeyboardInterrupt] and [SystemExit]
    derive from [BaseException] only, not from [Exception]. *)
Inductive py_class :=
| BaseException | KeyboardInterrupt | SystemExit
| Exception | RuntimeError | OSError | ValueError | TypeError | KeyError | OverflowError
| ReadTimeoutError | ChecksumMismatchError | SerialTimeoutError
| RequestException | ConnectionError | Timeout | ConnectTimeout | ReadTimeout | HTTPError.

#[global] Instance py_class_eq_dec : EqDecision py_class.
Proof. solve_decision. Defined.

(** Proper ancestors of a class (its method resolution order without itself). *)
Definition ancestors (c : py_class) : list py_class :=
  match c with
  | BaseException => []
  | KeyboardInterrupt | SystemExit | Exception => [BaseException]
  | RuntimeError | OSError | ValueError | TypeError | KeyError | OverflowError =>
      [Exception; BaseException]
  | ReadTimeoutError | ChecksumMismatchError | SerialTimeoutError =>
      [RuntimeError; Exception; BaseException]
  | RequestException => [OSError; Exception; BaseException]
  | ConnectionError | Timeout | HTTPError =>
      [RequestException; OSError; Exception; BaseException]
  | ConnectTimeout =>
      [ConnectionError; Timeout; RequestException; OSError; Exception; BaseException]
  | ReadTimeout => [Timeout; RequestException; OSError; Exception; BaseException]
  end.

Definition subclass (c d : py_class) : bool := bool_decide (d ∈ c :: ancestors c).

(** A raised exception: its class and the text [str(e)] prints. *)
Record exn := Exn { exn_class : py_class; exn_str : string }.

Definition isinstance (e : exn) (c : py_class) : bool := subclass (exn_class e) c.

Inductive Result (A : Type) :=
| Ret (a : A)
| Raise (e : exn).
Arguments Ret {A} a.
Arguments Raise {A} e.

(** ** Readings, events and the interpreter state *)

(** A reading is a [dict] from field names to strings. *)
Abbreviation reading := (gmap string string).

Record gas_reading := GasReading { oxidising : float; reducing : float; nh3 : float }.

(** What [pm_ug_per_m3] returns for the sizes 1.0, 2.5 and 10. *)
Record pms_reading := PmsReading { pm_1_0 : Z; pm_2_5 : Z; pm_10 : Z }.

Record response := Response { ok : bool; reason : string }.

Inductive device :=
| Clock | Calendar | CpuFile | BmeTemperature | BmePressure | BmeHumidity | GasAdc | Pms
| PmsResetPin | Http.

#[global] Instance device_eq_dec : EqDecision device.
Proof. solve_decision. Defined.

(** The collaborators of the script.  Each oracle answers the n-th call
    made to it (counting from 0). *)
Record Env := {
  API_URL : option string;                  (* os.getenv("API_URL") *)
  time_src : nat -> float;                  (* time.time() *)
  now_src : nat -> string;                  (* datetime.now(paris_tz).strftime("%d-%m-%Y %H:%M") *)
  cpu_src : nat -> Result Z;                (* int(f.read()) on the thermal zone file *)
  temperature_src : nat -> Result float;    (* bme280.get_temperature() *)
  pressure_src : nat -> Result float;       (* bme280.get_pressure() *)
  humidity_src : nat -> Result float;       (* bme280.get_humidity() *)
  gas_src : nat -> Result gas_reading;      (* gas.read_all() *)
  pms_src : nat -> Result pms_reading;      (* pms5003.read() *)
  reset_src : nat -> Result unit;           (* pms5003.reset() *)
  (* requests.post(url, data=json.dumps(body), headers=..., timeout=10) *)
  post_src : nat -> string -> list (string * string) -> Result response
}.

Inductive level := INFO | WARNING.

Inductive message :=
| Text (s : string)
| Repr (d : reading).

Inductive uploader := Send_pm | Send_enviro.

#[global] Instance uploader_eq_dec : EqDecision uploader.
Proof. solve_decision. Defined.

(** Observable events, oldest first in a trace.  [Call] marks the entry into
    an uploader with the reading it was given. *)
Inductive event :=
| Log (l : level) (m : message)
| PmsRead
| PmsReset
| Call (f : uploader) (values : reading)
| Post (url : string) (body : list (string * string)).

Record World := {
  calls : device -> nat;          (* calls made so far to each collaborator *)
  trace : list event;
  update_time : float;
  update_time2 : float;
  time_since_update : float;
  time_since_update2 : float
}.

Definition with_calls (c : device -> nat) (w : World) : World :=
  {| calls := c; trace := trace w; update_time := update_time w;
     update_time2 := update_time2 w; time_since_update := time_since_update w;
     time_since_update2 := time_since_update2 w |}.

Definition with_trace (t : list event) (w : World) : World :=
  {| calls := calls w; trace := t; update_time := update_time w;
     update_time2 := update_time2 w; time_since_update := time_since_update w;
     time_since_update2 := time_since_update2 w |}.

Definition with_update_time (t : float) (w : World) : World :=
  {| calls := calls w; trace := trace w; update_time := t;
     update_time2 := update_time2 w; time_since_update := time_since_update w;
     time_since_update2 := time_since_update2 w |}.

Definition with_update_time2 (t : float) (w : World) : World :=
  {| calls := calls w; trace := trace w; update_time := update_time w;
     update_time2 := t; time_since_update := time_since_update w;
     time_since_update2 := time_since_update2 w |}.

Definition with_time_since_update (t : float) (w : World) : World :=
  {| calls := calls w; trace := trace w; update_time := update_time w;
     update_time2 := update_time2 w; time_since_update := t;
     time_since_update2 := time_since_update2 w |}.

Definition with_time_since_update2 (t : float) (w : World) : World :=
  {| calls := calls w; trace := trace w; update_time := update_time w;
     update_time2 := update_time2 w; time_since_update := time_since_update w;
     time_since_update2 := t |}.

Definition bump (d : device) (c : device -> nat) : device -> nat :=
  fun d' => if bool_decide (d = d') then S (c d') else c d'.

(** ** The state-and-exception monad *)

Definition M (A : Type) : Type := World -> Result A * World.

Definition ret {A} (a : A) : M A := fun w => (Ret a, w).
Definition raise {A} (e : exn) : M A := fun w => (Raise e, w).

Definition bind {A B} (c : M A) (k : A -> M B) : M B :=
  fun w =>
    match c w with
    | (Ret a, w') => k a w'
    | (Raise e, w') => (Raise e, w')
    end.

(** [try: c except ...]: the handler picks the first matching clause, or
    [None] when no clause matches and the exception keeps propagating. *)
Definition try_except {A} (c : M A) (h : exn -> option (M A)) : M A :=
  fun w =>
    match c w with
    | (Ret a, w') => (Ret a, w')
    | (Raise e, w') =>
        match h e with
        | Some k => k w'
        | None => (Raise e, w')
        end
    end.

Definition lift {A} (r : Result A) : M A := fun w => (r, w).

Declare Scope py_scope.
Delimit Scope py_scope with py.
Notation "x <- c ;; k" := (bind c (fun x => k))
  (at level 100, c at next level, right associativity) : py_scope.
Notation "c ;; k" := (bind c (fun _ => k))
  (at level 100, right associativity) : py_scope.
Local Open Scope py_scope.

(** The index of the next call to [d], which is then counted. *)
Definition tick (d : device) : M nat :=
  fun w => (Ret (calls w d), with_calls (bump d (calls w)) w).

Definition emit (ev : event) : M unit :=
  fun w => (Ret tt, with_trace (trace w ++ [ev]) w).

Definition logging_info (m : message) : M unit := emit (Log INFO m).
Definition logging_warning (m : message) : M unit := emit (Log WARNING m).

(** ** Python primitives used by the script *)

(** [float(n)] as done implicitly by [n / 1000.0]: correctly rounded, and
    an [OverflowError] beyond the binary64 range. *)
Definition float_of_int (n : Z) : Result float :=
  match float_lit n 0 with
  | S754_infinity _ => Raise (Exn OverflowError "int too large to convert to float")
  | x => Ret x
  end.

(** [int(x)] on a float: truncation toward zero; NaN and the infinities
    have no integer value. *)
Definition py_int (x : float) : Result Z :=
  match x with
  | S754_nan => Raise (Exn ValueError "cannot convert float NaN to integer")
  | S754_infinity _ => Raise (Exn OverflowError "cannot convert float infinity to integer")
  | S754_zero _ => Ret 0
  | S754_finite s m e => Ret (if s then - trunc_mag m e else trunc_mag m e)
  end.

(** [values[k]] *)
Definition getitem (values : reading) (k : string) : M string :=
  match values !! k with
  | Some v => ret v
  | None => raise (Exn KeyError ("'" +:+ k +:+ "'"))
  end.

(** [base + path] where [base] may be [None]. *)
Definition str_add (base : option string) (path : string) : M string :=
  match base with
  | Some s => ret (s +:+ path)
  | None => raise (Exn TypeError "unsupported operand type(s) for +: 'NoneType' and 'str'")
  end.

Definition f1000 : float := float_lit 1000 0.

(** [comp_factor = 2.25] *)
Definition comp_factor : float := float_lit 9 (-2).

(** ** The script *)

Section Script.

Variable E : Env.

Definition time_time : M float :=
  n <- tick Clock ;; ret (time_src E n).

Definition strftime_now : M string :=
  n <- tick Calendar ;; ret (now_src E n).

Definition bme280_get_temperature : M float :=
  n <- tick BmeTemperature ;; lift (temperature_src E n).

Definition bme280_get_pressure : M float :=
  n <- tick BmePressure ;; lift (pressure_src E n).

Definition bme280_get_humidity : M float :=
  n <- tick BmeHumidity ;; lift (humidity_src E n).

Definition gas_read_all : M gas_reading :=
  n <- tick GasAdc ;; lift (gas_src E n).

Definition pms5003_read : M pms_reading :=
  n <- tick Pms ;; emit PmsRead ;; lift (pms_src E n).

Definition pms5003_reset : M unit :=
  n <- tick PmsResetPin ;; emit PmsReset ;; lift (reset_src E n).

Definition requests_post (url : string) (body : list (string * string)) : M response :=
  n <- tick Http ;; emit (Post url body) ;; lift (post_src E n url body).

Definition get_cpu_temperature : M float :=
  n <- tick CpuFile ;;
  temp <- lift (cpu_src E n) ;;
  t <- lift (float_of_int temp) ;;
  ret (fdiv t f1000).

Definition read_enviro_values : M reading :=
  let values : reading := ∅ in
  cpu_temp <- get_cpu_temperature ;;
  raw_temp <- bme280_get_temperature ;;
  let comp_temp := fsub raw_temp (fdiv (fsub cpu_temp raw_temp) comp_factor) in
  date <- strftime_now ;;
  let values := <["date" := date]> values in
  let values := <["temperature" := format_05_2f comp_temp]> values in
  pressure <- bme280_get_pressure ;;
  let values := <["pressure" := format_05_2f pressure]> values in
  humidity <- bme280_get_humidity ;;
  let values := <["humidity" := format_05_2f humidity]> values in
  data <- gas_read_all ;;
  ox <- lift (py_int (fdiv (oxidising data) f1000)) ;;
  let values := <["oxidising" := str_int ox]> values in
  red <- lift (py_int (fdiv (reducing data) f1000)) ;;
  let values := <["reducing" := str_int red]> values in
  n <- lift (py_int (fdiv (nh3 data) f1000)) ;;
  let values := <["nh3" := str_int n]> values in
  ret values.

(** The three assignments made from a particulate reading. *)
Definition store_pm (values : reading) (pm_values : pms_reading) : reading :=
  let values := <["pm1" := str_int (pm_1_0 pm_values)]> values in
  let values := <["pm25" := str_int (pm_2_5 pm_values)]> values in
  <["pm10" := str_int (pm_10 pm_values)]> values.

Definition read_pm_values : M reading :=
  let values : reading := ∅ in
  date <- strftime_now ;;
  let values := <["date" := date]> values in
  try_except
    (pm_values <- pms5003_read ;; ret (store_pm values pm_values))
    (fun e =>
       if isinstance e ReadTimeoutError || isinstance e ChecksumMismatchError then
         Some (logging_info (Text "Failed to read PMS5003. Reseting and retrying.") ;;
               pms5003_reset ;;
               pm_values <- pms5003_read ;;
               ret (store_pm values pm_values))
       else None).

(** The three [except] clauses around a post, with the prefix of their
    warning. *)
Definition transport_handler (who : string) (e : exn) : option (M (option response)) :=
  if isinstance e ConnectionError then
    Some (logging_warning (Text ("API " +:+ who +:+ " Connection Error: " +:+ exn_str e)) ;; ret None)
  else if isinstance e Timeout then
    Some (logging_warning (Text ("API " +:+ who +:+ " Timeout Error: " +:+ exn_str e)) ;; ret None)
  else if isinstance e RequestException then
    Some (logging_warning (Text ("API " +:+ who +:+ " Request Error: " +:+ exn_str e)) ;; ret None)
  else None.

Definition enviro_body (values : reading) : M (list (string * string)) :=
  date <- getitem values "date" ;;
  temperature <- getitem values "temperature" ;;
  pressure <- getitem values "pressure" ;;
  humidity <- getitem values "humidity" ;;
  ox <- getitem values "oxidising" ;;
  red <- getitem values "reducing" ;;
  n <- getitem values "nh3" ;;
  ret [("date", date); ("temperature", temperature); ("pressure", pressure);
       ("humidity", humidity); ("oxidising", ox); ("reducing", red); ("nh3", n)].

Definition send_enviro_data (values : reading) : M bool :=
  emit (Call Send_enviro values) ;;
  resp_enviro <-
    try_except
      (url <- str_add (API_URL E) "/enviro-data" ;;
       body <- enviro_body values ;;
       resp <- requests_post url body ;;
       ret (Some resp))
      (transport_handler "Enviro") ;;
  match resp_enviro with
  | Some resp =>
      if ok resp then ret true
      else
        logging_warning (Text ("API Enviro Error. Enviro: " +:+ reason resp)) ;;
        ret false
  | None => ret false
  end.

Definition pm_body (values : reading) : M (list (string * string)) :=
  date <- getitem values "date" ;;
  pm1 <- getitem values "pm1" ;;
  pm25 <- getitem values "pm25" ;;
  pm10 <- getitem values "pm10" ;;
  ret [("date", date); ("pm1", pm1); ("pm25", pm25); ("pm10", pm10)].

Definition send_pm_data (values : reading) : M bool :=
  emit (Call Send_pm values) ;;
  resp_pm <-
    try_except
      (url <- str_add (API_URL E) "/air-quality" ;;
       body <- pm_body values ;;
       resp <- requests_post url body ;;
       ret (Some resp))
      (transport_handler "PM") ;;
  match resp_pm with
  | Some resp =>
      if ok resp then ret true
      else
        logging_warning (Text ("Error. PM: " +:+ reason resp)) ;;
        ret false
  | None => ret false
  end.

(** Module-level statements that initialise the timers. *)
Definition startup : M unit :=
  (fun w => (Ret tt, with_time_since_update (S754_zero false) w)) ;;
  t <- time_time ;;
  (fun w => (Ret tt, with_update_time t w)) ;;
  (fun w => (Ret tt, with_time_since_update2 (S754_zero false) w)) ;;
  t2 <- time_time ;;
  (fun w => (Ret tt, with_update_time2 t2 w)) ;;
  logging_info (Text "Starting Enviro+ Data Send").

(** [if time_since_update > 300: ...] *)
Definition pm_branch (pm_values : reading) : M unit :=
  fun w =>
    if fgt (time_since_update w) (float_lit 300 0) then
      (logging_info (Repr pm_values) ;;
       t <- time_time ;;
       (fun w => (Ret tt, with_update_time t w)) ;;
       sent <- send_pm_data pm_values ;;
       if sent : bool then logging_info (Text "API pm Response: OK")
       else logging_warning (Text "API pm Response: Failed")) w
    else (Ret tt, w).

(** [if time_since_update2 > 900: ...] *)
Definition enviro_branch (enviro_values : reading) : M unit :=
  fun w =>
    if fgt (time_since_update2 w) (float_lit 900 0) then
      (logging_info (Repr enviro_values) ;;
       t <- time_time ;;
       (fun w => (Ret tt, with_update_time2 t w)) ;;
       sent <- send_enviro_data enviro_values ;;
       if sent : bool then logging_info (Text "API enviro Response: OK")
       else logging_warning (Text "API enviro Response: Failed")) w
    else (Ret tt, w).

(** The first four statements under [try:]: both readings are taken and
    both elapsed times computed, whether or not anything will be sent. *)
Definition measure : M (reading * reading) :=
  enviro_values <- read_enviro_values ;;
  pm_values <- read_pm_values ;;
  t <- time_time ;;
  (fun w => (Ret tt, with_time_since_update (fsub t (update_time w)) w)) ;;
  t2 <- time_time ;;
  (fun w => (Ret tt, with_time_since_update2 (fsub t2 (update_time2 w)) w)) ;;
  ret (enviro_values, pm_values).

(** The statements under [try:] in the main loop. *)
Definition loop_body : M unit :=
  v <- measure ;;
  pm_branch (snd v) ;;
  enviro_branch (fst v).

(** One pass of [while True]: the body under [except Exception as e].  An
    exception that does not derive from [Exception] is not caught. *)
Definition iteration : M unit :=
  try_except loop_body
    (fun e =>
       if isinstance e Exception then
         Some (logging_warning (Text ("Main Loop Exception: " +:+ exn_str e)))
       else None).

(** The first [n] passes of the loop; an exception that leaves a pass ends
    the process. *)
Fixpoint main_loop (n : nat) : M unit :=
  match n with
  | O => ret tt
  | S k => iteration ;; main_loop k
  end.

End Script.

(** ** Observations on runs *)

(** The uploader entries recorded in a trace, oldest first. *)
Fixpoint calls_of (tr : list event) : list (uploader * reading) :=
  match tr with
  | [] => []
  | Call f values :: tr' => (f, values) :: calls_of tr'
  | _ :: tr' => calls_of tr'
  end.

(** How many times uploader [f] was entered. *)
Definition sends (f : uploader) (tr : list event) : nat :=
  length (filter (fun c => fst c = f) (calls_of tr)).

Definition run_uploader (E : Env) (f : uploader) : reading -> M bool :=
  match f with
  | Send_pm => send_pm_data E
  | Send_enviro => send_enviro_data E
  end.

(** The keys an uploader reads from the reading it is given. *)
Definition fields (f : uploader) : list string :=
  match f with
  | Send_pm => ["date"; "pm1"; "pm25"; "pm10"]
  | Send_enviro => ["date"; "temperature"; "pressure"; "humidity"; "oxidising"; "reducing"; "nh3"]
  end.

Definition endpoint (f : uploader) : string :=
  match f with
  | Send_pm => "/air-quality"
  | Send_enviro => "/enviro-data"
  end.

(** The request body an uploader builds from its reading. *)
Definition body_of (f : uploader) : reading -> M (list (string * string)) :=
  match f with
  | Send_pm => pm_body
  | Send_enviro => enviro_body
  end.

(** How each uploader starts the warning about a response that is not ok. *)
Definition failure_prefix (f : uploader) : string :=
  match f with
  | Send_pm => "Error. PM: "
  | Send_enviro => "API Enviro Error. Enviro: "
  end.

(** The answer of the HTTP client to the post that [f] makes from world [w],
    or [None] when the uploader cannot build the request (no base URL, or a
    key missing from the reading) and so never reaches the client. *)
Definition post_outcome (E : Env) (f : uploader) (values : reading) (w : World)
    : option (Result response) :=
  base ← API_URL E;
  body ← mapM (fun k => pair k <$> values !! k) (fields f);
  Some (post_src E (calls w Http) (base +:+ endpoint f) body).

(** The world after [n] passes, each started in the world the previous one
    left.  It is the state of the loop for as long as no pass lets an
    exception through. *)
Fixpoint run (E : Env) (n : nat) (w : World) : World :=
  match n with
  | O => w
  | S k => snd (iteration E (run E k w))
  end.

(** The elapsed time tested by [if time_since_update > 300], when the pass
    started in [w] gets that far. *)
Definition pm_checked (E : Env) (w : World) : option float :=
  match measure E w with
  | (Ret _, w1) => Some (time_since_update w1)
  | (Raise _, _) => None
  end.

(** The elapsed time tested by [if time_since_update2 > 900], when the pass
    started in [w] gets that far. *)
Definition enviro_checked (E : Env) (w : World) : option float :=
  match (v <- measure E ;; pm_branch E (snd v)) w with
  | (Ret _, w2) => Some (time_since_update2 w2)
  | (Raise _, _) => None
  end.

Definition exceeds (limit : Z) (elapsed : option float) : bool :=
  match elapsed with
  | Some x => fgt x (float_lit limit 0)
  | None => false
  end.

(** A transient particulate-sensor error, as the [except] clause of
    [read_pm_values] selects it. *)
Definition transient (e : exn) : bool :=
  isinstance e ReadTimeoutError || isinstance e ChecksumMismatchError.

(** ** Frame conditions *)

(** [steady w w']: going from [w] to [w'] leaves the four timer globals and
    the clock untouched. *)
Definition steady (w w' : World) : Prop :=
  update_time w' = update_time w /\ update_time2 w' = update_time2 w /\
  time_since_update w' = time_since_update w /\
  time_since_update2 w' = time_since_update2 w /\
  calls w' Clock = calls w Clock.

(** [quiet w w']: moreover no uploader was entered and no post was made. *)
Definition quiet (w w' : World) : Prop :=
  steady w w' /\ calls w' Http = calls w Http /\
  calls_of (trace w') = calls_of (trace w).

(** A computation keeps [R] when every run of it relates its initial world
    to its final one, whether it returns or raises. *)
Definition keeps (R : World -> World -> Prop) {A} (c : M A) : Prop :=
  forall w, R w (snd (c w)).

(** The world once uploader [f] has been entered with [values]. *)
Definition entered (f : uploader) (values : reading) (w : World) : World :=
  with_trace (trace w ++ [Call f values]) w.

(** The world once a post has been handed to the HTTP client. *)
Definition posted (url : string) (body : list (string * string)) (w : World) : World :=
  with_trace (trace w ++ [Post url body]) (with_calls (bump Http (calls w)) w).

(** The world once one warning has been logged. *)
Definition warned (msg : string) (w : World) : World :=
  with_trace (trace w ++ [Log WARNING (Text msg)]) w.

(** What [None + "/path"] raises. *)
Definition no_base : exn :=
  Exn TypeError "unsupported operand type(s) for +: 'NoneType' and 'str'".

(** The interval of each reading type, in seconds. *)
Definition limit (f : uploader) : Z :=
  match f with
  | Send_pm => 300
  | Send_enviro => 900
  end.

(** The global that holds the time of the last send attempt of each type. *)
Definition timer (f : uploader) (w : World) : float :=
  match f with
  | Send_pm => update_time w
  | Send_enviro => update_time2 w
  end.

(** The elapsed time that the timer test of [f] sees in the pass started in
    [w], when the pass gets that far. *)
Definition checked (E : Env) (f : uploader) (w : World) : option float :=
  match f with
  | Send_pm => pm_checked E w
  | Send_enviro => enviro_checked E w
  end.

(** The pass started in [w] reaches the timer test of [f] and passes it. *)
Definition due (E : Env) (f : uploader) (w : World) : bool :=
  exceeds (limit f) (checked E f w).

(** The clock reading taken for [f] in the pass started in [w], minus the
    stamp of the last send attempt of [f]: the first two clock calls of a pass
    serve the air-quality and the enviro timer, in this order. *)
Definition elapsed_since (E : Env) (f : uploader) (w : World) : float :=
  match f with
  | Send_pm => fsub (time_src E (calls w Clock)) (update_time w)
  | Send_enviro => fsub (time_src E (S (calls w Clock))) (update_time2 w)
  end.

(** Which clock call stamps the timer of [f] when [f] is sent in the pass
    started in [w]: the third of the pass, or the fourth for the enviro
    timer when the air-quality branch ran first. *)
Definition stamp_index (E : Env) (f : uploader) (w : World) : nat :=
  match f with
  | Send_pm => S (S (calls w Clock))
  | Send_enviro =>
      if due E Send_pm w then S (S (S (calls w Clock))) else S (S (calls w Clock))
  end.

(** ** What the renderings mean *)

(** The integer that a signed decimal numeral denotes. *)
Definition int_of_str (s : string) : option Z :=
  Z.of_int <$> NilZero.int_of_string s.

(** The natural number that a run of decimal digits denotes, leading zeros
    allowed; [None] when a character is not a digit. *)
Definition digits_value (s : string) : option Z :=
  Z.of_uint <$> NilEmpty.uint_of_string s.

Definition sign_bit (x : float) : bool :=
  match x with
  | S754_zero s | S754_infinity s | S754_finite s _ _ => s
  | S754_nan => false
  end.

(** [z] is [x] truncated toward zero: [z] has the sign of [x] and
    [|z| <= |x| < |z| + 1].  Both sides are scaled by [2^k] so that the
    comparison is between integers. *)
Definition truncation_of (x : float) (z : Z) : Prop :=
  match x with
  | S754_zero _ => z = 0
  | S754_finite s m e =>
      let k := Z.max 0 (- e) in
      (if s then z <= 0 else 0 <= z) /\
      Z.abs z * 2 ^ k <= Zpos m * 2 ^ (e + k) < (Z.abs z + 1) * 2 ^ k
  | S754_infinity _ | S754_nan => False
  end.

(** [n] is the integer nearest to [100 * |x|], the even one on a tie.
    Again both sides are scaled by [2^k]. *)
Definition nearest_hundredths (x : float) (n : Z) : Prop :=
  match x with
  | S754_zero _ => n = 0
  | S754_finite _ m e =>
      let k := Z.max 0 (- e) in
      let gap := Z.abs (100 * Zpos m * 2 ^ (e + k) - n * 2 ^ k) in
      0 <= n /\ 2 * gap <= 2 ^ k /\ (2 * gap = 2 ^ k -> Z.even n = true)
  | S754_infinity _ | S754_nan => False
  end.

(** [s] writes [n / 100] with a sign, an integer part, a point and exactly
    two decimals; it is at least 5 characters wide, and wider only when the
    integer part has no leading zero to spare. *)
Definition fixed2_rendering (neg : bool) (n : Z) (s : string) : Prop :=
  exists int_part frac_part : string,
    s = (if neg then "-" else EmptyString) +:+ int_part +:+ "." +:+ frac_part /\
    String.length frac_part = 2%nat /\
    digits_value int_part = Some (n / 100) /\
    digits_value frac_part = Some (n mod 100) /\
    (5 <= String.length s)%nat /\
    ((5 < String.length s)%nat -> int_part = str_int (n / 100)).

(** ** Further observations *)

Definition is_warning (ev : event) : bool :=
  match ev with
  | Log WARNING _ => true
  | _ => false
  end.

(** The warnings of a trace, oldest first. *)
Definition warnings (tr : list event) : list event := List.filter is_warning tr.

(** The HTTP requests recorded in a trace, oldest first. *)
Fixpoint posts_of (tr : list event) : list (string * list (string * string)) :=
  match tr with
  | [] => []
  | Post url body :: tr' => (url, body) :: posts_of tr'
  | _ :: tr' => posts_of tr'
  end.

(** The first of the keys [ks] that the reading lacks. *)
Definition first_missing (values : reading) (ks : list string) : option string :=
  List.find (fun k => bool_decide (values !! k = None)) ks.

(** The pairs [(k, values[k])] for the keys [ks], in their order. *)
Definition body_from (values : reading) (ks : list string) : list (string * string) :=
  map (fun k => (k, default EmptyString (values !! k))) ks.

(** The name an uploader gives itself in its transport warnings. *)
Definition who (f : uploader) : string :=
  match f with
  | Send_pm => "PM"
  | Send_enviro => "Enviro"
  end.

(** The warning that the [except] clauses of an uploader write for a
    request exception: the first clause that matches decides. *)
Definition transport_message (f : uploader) (e : exn) : string :=
  if isinstance e ConnectionError then "API " +:+ who f +:+ " Connection Error: " +:+ exn_str e
  else if isinstance e Timeout then "API " +:+ who f +:+ " Timeout Error: " +:+ exn_str e
  else "API " +:+ who f +:+ " Request Error: " +:+ exn_str e.

(** The timer branch of each reading type. *)
Definition branch (E : Env) (f : uploader) : reading -> M unit :=
  match f with
  | Send_pm => pm_branch E
  | Send_enviro => enviro_branch E
  end.

(** The elapsed time that the branch of [f] tests. *)
Definition tested (f : uploader) (w : World) : float :=
  match f with
  | Send_pm => time_since_update w
  | Send_enviro => time_since_update2 w
  end.

(** The lines the loop logs after a send returned [True] or [False]. *)
Definition report_ok (f : uploader) : string :=
  match f with
  | Send_pm => "API pm Response: OK"
  | Send_enviro => "API enviro Response: OK"
  end.

Definition report_failed (f : uploader) : string :=
  match f with
  | Send_pm => "API pm Response: Failed"
  | Send_enviro => "API enviro Response: Failed"
  end.

(** The world in which the uploader of a taken branch starts: the reading
    is logged, the clock was read once more and stamps the timer of [f]. *)
Definition stamped (E : Env) (f : uploader) (values : reading) (w : World) : World :=
  let w1 := with_calls (bump Clock (calls w))
              (with_trace (trace w ++ [Log INFO (Repr values)]) w) in
  match f with
  | Send_pm => with_update_time (time_src E (calls w Clock)) w1
  | Send_enviro => with_update_time2 (time_src E (calls w Clock)) w1
  end.

(** How many times [f] is sent in the pass started in [w]. *)
Definition sends_in (E : Env) (f : uploader) (w : World) : nat :=
  if due E f w then 1 else 0.

(** [hushed w w']: going from [w] to [w'] adds no warning to the log. *)
Definition hushed (w w' : World) : Prop :=
  warnings (trace w') = warnings (trace w).

(** [unposted w w']: going from [w] to [w'] makes no HTTP request. *)
Definition unposted (w w' : World) : Prop :=
  posts_of (trace w') = posts_of (trace w) /\ calls w' Http = calls w Http.

(** ** The retry and the handler of the loop *)

(** [field] holds the decimal numeral of [z], which parses back to [z]. *)
Definition numeral_of (z : Z) (field : option string) : Prop :=
  field = Some (str_int z) /\ field ≫= int_of_str = Some z.

(** [values] is the air-quality reading made from the sensor answer [pm]
    and dated [date]. *)
Definition pm_reading_of (date : string) (pm : pms_reading) (values : reading) : Prop :=
  values !! "date" = Some date /\
  numeral_of (pm_1_0 pm) (values !! "pm1") /\
  numeral_of (pm_2_5 pm) (values !! "pm25") /\
  numeral_of (pm_10 pm) (values !! "pm10").

(** An answer that is a value, or an error that derives from [Exception]. *)
Definition ordinary {A} (r : Result A) : Prop :=
  match r with
  | Ret _ => True
  | Raise e => isinstance e Exception = true
  end.

(** No collaborator ever raises outside [Exception]: no [KeyboardInterrupt]
    and no [SystemExit] arrives while the script waits for one of them. *)
Definition uninterrupted (E : Env) : Prop :=
  (forall n, ordinary (cpu_src E n)) /\
  (forall n, ordinary (temperature_src E n)) /\
  (forall n, ordinary (pressure_src E n)) /\
  (forall n, ordinary (humidity_src E n)) /\
  (forall n, ordinary (gas_src E n)) /\
  (forall n, ordinary (pms_src E n)) /\
  (forall n, ordinary (reset_src E n)) /\
  (forall n url body, ordinary (post_src E n url body)).

(** A computation that raises nothing but errors deriving from
    [Exception]. *)
Definition graceful {A} (c : M A) : Prop :=
  forall w e w', c w = (Raise e, w') -> isinstance e Exception = true.

(** ** Test environments *)

Module Fixtures.

Definition w0 : World :=
  {| calls := fun _ => O; trace := [];
     update_time := S754_zero false; update_time2 := S754_zero false;
     time_since_update := S754_zero false; time_since_update2 := S754_zero false |}.

Definition pm_ok : Result pms_reading := Ret (PmsReading 3 5 8).

Definition gas_ok : Result gas_reading :=
  Ret (GasReading (float_lit 49999 (-1)) (float_lit 731500 0) (float_lit (-2500) 0)).

(** A healthy board: CPU at 45 degrees, sensor at 25 degrees, the clock
    always reading [now] seconds, the particulate sensor scripted by
    [pms] and the API answering every post with [post]. *)
Definition board (url : option string) (now : Z) (pms : nat -> Result pms_reading)
    (post : Result response) : Env :=
  {| API_URL := url;
     time_src := fun _ => float_lit now 0;
     now_src := fun _ => "03-11-2026 10:15";
     cpu_src := fun _ => Ret 45000;
     temperature_src := fun _ => Ret (float_lit 25 0);
     pressure_src := fun _ => Ret (float_lit 4053 (-2));
     humidity_src := fun _ => Ret (float_lit 81 (-1));
     gas_src := fun _ => gas_ok;
     pms_src := pms;
     reset_src := fun _ => Ret tt;
     post_src := fun _ _ _ => post |}.

(** A particulate sensor that gives the scripted answers in turn, then
    healthy readings. *)
Definition pms_script (answers : list (Result pms_reading)) (n : nat) : Result pms_reading :=
  nth n answers pm_ok.

Definition api : option string := Some "http://api.example".

Definition serial_timeout : exn := Exn ReadTimeoutError "PMS5003 Read Timeout".
Definition bad_checksum : exn := Exn ChecksumMismatchError "PMS5003 Checksum Mismatch".
Definition serial_down : exn := Exn SerialTimeoutError "PMS5003 Read Timeout: Failed to read start of frame byte".

Definition pm_reading_ok : reading :=
  <["pm10" := "8"]> (<["pm25" := "5"]> (<["pm1" := "3"]> (<["date" := "03-11-2026 10:15"]> ∅))).

(** A clock that reads 100 s during the first pass and 400 s afterwards. *)
Definition late_clock (n : nat) : float :=
  if (n <? 2)%nat then float_lit 100 0 else float_lit 400 0.

Definition board_late : Env :=
  {| API_URL := api;
     time_src := late_clock;
     now_src := fun _ => "03-11-2026 10:15";
     cpu_src := fun _ => Ret 45000;
     temperature_src := fun _ => Ret (float_lit 25 0);
     pressure_src := fun _ => Ret (float_lit 4053 (-2));
     humidity_src := fun _ => Ret (float_lit 81 (-1));
     gas_src := fun _ => gas_ok;
     pms_src := fun _ => pm_ok;
     reset_src := fun _ => Ret tt;
     post_src := fun _ _ _ => Ret (Response true "OK") |}.

(** The timers were stamped at 699 s and 500 s. *)
Definition w_mid : World :=
  {| calls := fun _ => O; trace := [];
     update_time := float_lit 699 0; update_time2 := float_lit 500 0;
     time_since_update := S754_zero false; time_since_update2 := S754_zero false |}.

(** The reading that [read_enviro_values] returns on a healthy board. *)
Definition enviro_reading_ok : reading :=
  <["nh3" := "-2"]> (<["reducing" := "731"]> (<["oxidising" := "24"]>
  (<["humidity" := "40.50"]> (<["pressure" := "1013.25"]>
  (<["temperature" := "16.11"]> (<["date" := "03-11-2026 10:15"]> ∅)))))).

Definition healthy : Env := board api 1000 (fun _ => pm_ok) (Ret (Response true "OK")).

(** A reading that lacks the air-quality values. *)
Definition date_only : reading := <["date" := "03-11-2026 10:15"]> ∅.

(** A complete air-quality reading with a stray key. *)
Definition pm_reading_noisy : reading := <["battery" := "97"]> pm_reading_ok.

Definition pm_body_ok : list (string * string) :=
  [("date", "03-11-2026 10:15"); ("pm1", "3"); ("pm25", "5"); ("pm10", "8")].

(** A board whose HTTP client raises [e] on every post. *)
Definition board_raising (e : exn) : Env := board api 1000 (fun _ => pm_ok) (Raise e).

(** A board whose gas sensor reports [data]. *)
Definition board_gas (data : gas_reading) : Env :=
  {| API_URL := api;
     time_src := fun _ => float_lit 1000 0;
     now_src := fun _ => "03-11-2026 10:15";
     cpu_src := fun _ => Ret 45000;
     temperature_src := fun _ => Ret (float_lit 25 0);
     pressure_src := fun _ => Ret (float_lit 4053 (-2));
     humidity_src := fun _ => Ret (float_lit 81 (-1));
     gas_src := fun _ => Ret data;
     pms_src := fun _ => pm_ok;
     reset_src := fun _ => Ret tt;
     post_src := fun _ _ _ => Ret (Response true "OK") |}.

(** A board whose thermal-zone file cannot be read. *)
Definition board_no_cpu_file : Env :=
  {| API_URL := api;
     time_src := fun _ => float_lit 1000 0;
     now_src := fun _ => "03-11-2026 10:15";
     cpu_src := fun _ => Raise (Exn OSError "[Errno 2] No such file or directory");
     temperature_src := fun _ => Ret (float_lit 25 0);
     pressure_src := fun _ => Ret (float_lit 4053 (-2));
     humidity_src := fun _ => Ret (float_lit 81 (-1));
     gas_src := fun _ => gas_ok;
     pms_src := fun _ => pm_ok;
     reset_src := fun _ => Ret tt;
     post_src := fun _ _ _ => Ret (Response true "OK") |}.

(** What Ctrl-C raises in the main thread. *)
Definition interrupt : exn := Exn KeyboardInterrupt EmptyString.

Definition reset_error : exn := Exn OSError "[Errno 5] Input/output error".

(** A board whose particulate sensor times out once and whose reset line
    then fails. *)
Definition board_reset_fails : Env :=
  {| API_URL := api;
     time_src := fun _ => float_lit 1000 0;
     now_src := fun _ => "03-11-2026 10:15";
     cpu_src := fun _ => Ret 45000;
     temperature_src := fun _ => Ret (float_lit 25 0);
     pressure_src := fun _ => Ret (float_lit 4053 (-2));
     humidity_src := fun _ => Ret (float_lit 81 (-1));
     gas_src := fun _ => gas_ok;
     pms_src := pms_script [Raise serial_timeout];
     reset_src := fun _ => Raise reset_error;
     post_src := fun _ _ _ => Ret (Response true "OK") |}.

(** Both elapsed times have just been computed as 1000 s. *)
Definition w_due : World :=
  {| calls := fun _ => O; trace := [];
     update_time := S754_zero false; update_time2 := S754_zero false;
     time_since_update := float_lit 1000 0; time_since_update2 := float_lit 1000 0 |}.

End Fixtures.

(** * Properties *)

(** ** The monad *)

Lemma bind_ret_inv {A B} (c : M A) (k : A -> M B) w b w' :
  bind c k w = (Ret b, w') ->
  exists a w1, c w = (Ret a, w1) /\ k a w1 = (Ret b, w').
Proof.
  unfold bind. destruct (c w) as [[a|e] w1]; [eauto | discriminate].
Qed.

Section Frames.

Variable R : World -> World -> Prop.
Hypothesis R_refl : forall w, R w w.
Hypothesis R_trans : forall w1 w2 w3, R w1 w2 -> R w2 w3 -> R w1 w3.

Lemma keeps_ret {A} (a : A) : keeps R (ret a).
Proof. intros w. apply R_refl. Qed.

Lemma keeps_raise {A} (e : exn) : keeps R (raise (A := A) e).
Proof. intros w. apply R_refl. Qed.

Lemma keeps_lift {A} (r : Result A) : keeps R (lift r).
Proof. intros w. apply R_refl. Qed.

Lemma keeps_bind {A B} (c : M A) (k : A -> M B) :
  keeps R c -> (forall a, keeps R (k a)) -> keeps R (bind c k).
Proof.
  intros Hc Hk w. unfold bind. specialize (Hc w).
  destruct (c w) as [[a|e] w1]; simpl in *; [|assumption].
  eapply R_trans; [eassumption | apply Hk].
Qed.

Lemma keeps_try {A} (c : M A) (h : exn -> option (M A)) :
  keeps R c -> (forall e k, h e = Some k -> keeps R k) -> keeps R (try_except c h).
Proof.
  intros Hc Hh w. unfold try_except. specialize (Hc w).
  destruct (c w) as [[a|e] w1]; simpl in *; [assumption|].
  destruct (h e) as [k|] eqn:He; simpl; [|assumption].
  eapply R_trans; [eassumption | eapply Hh, He].
Qed.

End Frames.

Lemma steady_refl w : steady w w.
Proof. repeat split. Qed.

Lemma steady_trans w1 w2 w3 : steady w1 w2 -> steady w2 w3 -> steady w1 w3.
Proof. unfold steady. intuition congruence. Qed.

Lemma quiet_refl w : quiet w w.
Proof. repeat split. Qed.

Lemma quiet_trans w1 w2 w3 : quiet w1 w2 -> quiet w2 w3 -> quiet w1 w3.
Proof. unfold quiet, steady. intuition congruence. Qed.

Lemma calls_of_app tr1 tr2 : calls_of (tr1 ++ tr2) = calls_of tr1 ++ calls_of tr2.
Proof.
  induction tr1 as [|ev tr1 IH]; simpl; [reflexivity|].
  destruct ev; simpl; rewrite ?IH; reflexivity.
Qed.

Lemma quiet_tick d : d <> Clock -> d <> Http -> keeps quiet (tick d).
Proof.
  intros H1 H2 w. unfold tick, quiet, steady, bump; simpl.
  rewrite !bool_decide_eq_false_2 by assumption. repeat split.
Qed.

Lemma quiet_emit ev : calls_of [ev] = [] -> keeps quiet (emit ev).
Proof.
  intros H w. unfold emit, quiet, steady; simpl.
  rewrite calls_of_app, H, app_nil_r. repeat split.
Qed.

Create HintDb frame.

#[local] Hint Resolve quiet_refl quiet_trans steady_refl steady_trans : frame.
#[local] Hint Resolve keeps_ret keeps_raise keeps_lift quiet_emit : frame.

(** Walks down a straight-line computation, one bind at a time. *)
Ltac frame_steps :=
  repeat first
    [ apply keeps_bind; [solve [eauto with frame] | | intros ?]
    | apply quiet_tick; discriminate
    | solve [eauto with frame]
    | assumption ].

Lemma quiet_get_cpu_temperature E : keeps quiet (get_cpu_temperature E).
Proof. unfold get_cpu_temperature. frame_steps. Qed.

Lemma quiet_read_enviro_values E : keeps quiet (read_enviro_values E).
Proof.
  unfold read_enviro_values, bme280_get_temperature, bme280_get_pressure,
    bme280_get_humidity, gas_read_all, strftime_now.
  pose proof (quiet_get_cpu_temperature E). frame_steps.
Qed.

Lemma quiet_pms5003_read E : keeps quiet (pms5003_read E).
Proof. unfold pms5003_read. frame_steps. Qed.

Lemma quiet_read_pm_values E : keeps quiet (read_pm_values E).
Proof.
  unfold read_pm_values, strftime_now. pose proof (quiet_pms5003_read E).
  frame_steps. apply keeps_try; eauto with frame.
  - frame_steps.
  - intros e k Hk. destruct (_ || _); [|discriminate].
    injection Hk as <-. unfold logging_info, pms5003_reset. frame_steps.
Qed.

(** ** Call counters *)

Lemma bump_same d c : bump d c d = S (c d).
Proof. unfold bump. now rewrite bool_decide_eq_true_2. Qed.

Lemma bump_other d d' c : d <> d' -> bump d c d' = c d'.
Proof. intros H. unfold bump. now rewrite bool_decide_eq_false_2. Qed.

(** ** The uploaders *)

Lemma transport_handler_catches who e :
  isinstance e RequestException = true ->
  exists msg, transport_handler who e = Some (logging_warning (Text msg) ;; ret None)%py.
Proof.
  intros H. unfold transport_handler.
  destruct (isinstance e ConnectionError); [eauto|].
  destruct (isinstance e Timeout); [eauto|].
  rewrite H. eauto.
Qed.

Lemma transport_handler_other who e :
  isinstance e RequestException = false -> transport_handler who e = None.
Proof.
  destruct e as [c s]. unfold transport_handler, isinstance; simpl.
  destruct c; vm_compute; congruence.
Qed.

Lemma body_of_spec f values w :
  match mapM (fun k => pair k <$> values !! k) (fields f) with
  | Some body => body_of f values w = (Ret body, w)
  | None => exists k, body_of f values w = (Raise (Exn KeyError k), w)
  end.
Proof.
  destruct f; unfold body_of, pm_body, enviro_body, getitem, bind, ret, raise; cbn.
  - destruct (values !! "date"); cbn; [|eexists; reflexivity].
    destruct (values !! "pm1"); cbn; [|eexists; reflexivity].
    destruct (values !! "pm25"); cbn; [|eexists; reflexivity].
    destruct (values !! "pm10"); cbn; [|eexists; reflexivity].
    reflexivity.
  - destruct (values !! "date"); cbn; [|eexists; reflexivity].
    destruct (values !! "temperature"); cbn; [|eexists; reflexivity].
    destruct (values !! "pressure"); cbn; [|eexists; reflexivity].
    destruct (values !! "humidity"); cbn; [|eexists; reflexivity].
    destruct (values !! "oxidising"); cbn; [|eexists; reflexivity].
    destruct (values !! "reducing"); cbn; [|eexists; reflexivity].
    destruct (values !! "nh3"); cbn; [|eexists; reflexivity].
    reflexivity.
Qed.

Lemma run_uploader_unfold E f values :
  run_uploader E f values =
  (emit (Call f values) ;;
   resp <-
     try_except
       (url <- str_add (API_URL E) (endpoint f) ;;
        body <- body_of f values ;;
        resp <- requests_post E url body ;;
        ret (Some resp))
       (transport_handler (match f with Send_pm => "PM" | Send_enviro => "Enviro" end)) ;;
   match resp with
   | Some resp =>
       if ok resp then ret true
       else logging_warning (Text (failure_prefix f +:+ reason resp)) ;; ret false
   | None => ret false
   end)%py.
Proof. destruct f; reflexivity. Qed.


Lemma run_uploader_cases E f values w :
  match post_outcome E f values w with
  | None =>
      exists e, run_uploader E f values w = (Raise e, entered f values w) /\
                isinstance e RequestException = false /\
                (API_URL E = None -> e = no_base)
  | Some out =>
      exists url body,
        let w2 := posted url body (entered f values w) in
        match out with
        | Ret resp =>
            run_uploader E f values w =
            if ok resp then (Ret true, w2)
            else (Ret false, warned (failure_prefix f +:+ reason resp) w2)
        | Raise e =>
            if isinstance e RequestException then
              exists msg, run_uploader E f values w = (Ret false, warned msg w2)
            else run_uploader E f values w = (Raise e, w2)
        end
  end.
Proof.
  rewrite run_uploader_unfold. unfold post_outcome, entered, posted, warned.
  pose proof (body_of_spec f values) as Hbody.
  unfold bind, try_except, emit, requests_post, tick, lift, logging_warning, ret; cbn.
  destruct (API_URL E) as [base|]; cbn.
  2: { rewrite transport_handler_other by reflexivity.
       eexists. split; [reflexivity|]. split; [reflexivity|]. reflexivity. }
  match goal with |- context [body_of f values ?w0] => specialize (Hbody w0) end.
  destruct (mapM _ (fields f)) as [body|]; cbn.
  2: { destruct Hbody as [k ->].
       rewrite transport_handler_other by reflexivity.
       eexists. split; [reflexivity|]. split; [reflexivity|]. discriminate. }
  rewrite Hbody. exists (base +:+ endpoint f), body. cbn.
  destruct (post_src E (calls w Http) (base +:+ endpoint f) body) as [resp|e]; cbn.
  - destruct (ok resp); reflexivity.
  - destruct (isinstance e RequestException) eqn:He.
    + destruct (transport_handler_catches
        (match f with Send_pm => "PM" | Send_enviro => "Enviro" end) e He) as [msg ->].
      exists msg. reflexivity.
    + rewrite transport_handler_other by assumption. reflexivity.
Qed.

Lemma transport_errors_are_request_exceptions e :
  isinstance e ConnectionError = true \/ isinstance e Timeout = true ->
  isinstance e RequestException = true.
Proof.
  destruct e as [c s]. unfold isinstance; simpl.
  destruct c; vm_compute; intuition congruence.
Qed.

(** C2. An uploader returns [True] exactly when its post reaches the HTTP
    client and the response is ok.  When the client raises a request
    exception (connection failure, timeout or any other), or answers with a
    status that is not ok, the uploader returns [False] and adds exactly one
    warning to the log, which quotes the reason in the second case.  Whatever
    the uploader raises is not a request exception. *)
Theorem uploader_outcome (E : Env) (f : uploader) (values : reading) (w : World) :
  let r := fst (run_uploader E f values w) in
  let w' := snd (run_uploader E f values w) in
  (r = Ret true <->
   exists why, post_outcome E f values w = Some (Ret (Response true why))) /\
  (forall e, post_outcome E f values w = Some (Raise e) ->
     isinstance e RequestException = true ->
     r = Ret false /\
     exists url body msg,
       trace w' = trace w ++ [Call f values; Post url body; Log WARNING (Text msg)]) /\
  (forall why, post_outcome E f values w = Some (Ret (Response false why)) ->
     r = Ret false /\
     exists url body,
       trace w' = trace w ++
         [Call f values; Post url body; Log WARNING (Text (failure_prefix f +:+ why))]) /\
  (forall e, r = Raise e -> isinstance e RequestException = false).
Proof.
  pose proof (run_uploader_cases E f values w) as H.
  assert (Htr : forall url body msg,
    trace (warned msg (posted url body (entered f values w))) =
    trace w ++ [Call f values; Post url body; Log WARNING (Text msg)]).
  { intros. simpl. now rewrite <- !app_assoc. }
  destruct (post_outcome E f values w) as [[resp|e]|].
  - destruct H as (url & body & H). cbn zeta in H. rewrite H.
    destruct resp as [[|] why]; simpl ok; simpl reason; cbn iota.
    + split; [split; [eauto | reflexivity]|].
      split; [discriminate|]. split; [discriminate | discriminate].
    + split; [split; [discriminate | intros [why' [= ]]]|].
      split; [discriminate|].
      split; [|discriminate].
      intros why' [= <-]. split; [reflexivity|]. exists url, body. apply Htr.
  - destruct H as (url & body & H). cbn zeta in H.
    destruct (isinstance e RequestException) eqn:He.
    + destruct H as [msg ->].
      split; [split; [discriminate | intros [why' [= ]]]|].
      split; [|split; [discriminate | discriminate]].
      intros e' _ _. split; [reflexivity|]. exists url, body, msg. apply Htr.
    + rewrite H.
      split; [split; [discriminate | intros [why' [= ]]]|].
      split; [intros e' [= <-]; congruence|].
      split; [discriminate|].
      intros e' [= <-]. assumption.
  - destruct H as (e & -> & He & _).
    split; [split; [discriminate | intros [why' [= ]]]|].
    split; [discriminate|]. split; [discriminate|].
    intros e' [= <-]. assumption.
Qed.

Lemma uploader_outcome_witness :
  let E := Fixtures.board Fixtures.api 0 (fun _ => Fixtures.pm_ok)
             (Raise (Exn ConnectTimeout "connect timed out")) in
  let E' := Fixtures.board Fixtures.api 0 (fun _ => Fixtures.pm_ok)
              (Ret (Response false "Service Unavailable")) in
  fst (run_uploader E Send_pm Fixtures.pm_reading_ok Fixtures.w0) = Ret false /\
  fst (run_uploader E' Send_pm Fixtures.pm_reading_ok Fixtures.w0) = Ret false.
Proof.
  split.
  - apply (proj1 (proj2 (uploader_outcome _ Send_pm Fixtures.pm_reading_ok Fixtures.w0))
             (Exn ConnectTimeout "connect timed out")).
    + vm_compute. reflexivity.
    + vm_compute. reflexivity.
  - apply (proj1 (proj2 (proj2 (uploader_outcome _ Send_pm Fixtures.pm_reading_ok Fixtures.w0)))
             "Service Unavailable").
    vm_compute. reflexivity.
Defined.

(** ** A missing [API_URL] *)

(** C9, as stated, fails: without a base URL the uploader does not return
    [False]; it raises while building the URL, posts nothing and logs
    nothing. *)
Lemma no_api_url_counterexample :
  let E := Fixtures.board None 0 (fun _ => Fixtures.pm_ok) (Ret (Response true "OK")) in
  let out := send_pm_data E Fixtures.pm_reading_ok Fixtures.w0 in
  API_URL E = None /\
  fst out = Raise no_base /\
  fst out <> Ret false /\
  trace (snd out) = [Call Send_pm Fixtures.pm_reading_ok].
Proof.
  split; [reflexivity|]. split; [vm_compute; reflexivity|].
  split; [vm_compute; discriminate|]. vm_compute. reflexivity.
Qed.

(** C9, amended. Without a base URL every call of an uploader raises the
    [TypeError] of [None + str]: no request reaches the HTTP client, nothing
    is logged, and the error is not one the uploader catches. *)
Theorem uploader_without_api_url (E : Env) (f : uploader) (values : reading) (w : World) :
  API_URL E = None ->
  let r := fst (run_uploader E f values w) in
  let w' := snd (run_uploader E f values w) in
  r = Raise no_base /\
  trace w' = trace w ++ [Call f values] /\
  calls w' Http = calls w Http /\
  transport_handler (match f with Send_pm => "PM" | Send_enviro => "Enviro" end) no_base = None.
Proof.
  intros Hurl. pose proof (run_uploader_cases E f values w) as H.
  unfold post_outcome in H. rewrite Hurl in H. simpl in H.
  destruct H as (e & -> & _ & He). rewrite (He eq_refl). simpl.
  repeat split.
Qed.

Lemma uploader_without_api_url_witness :
  let E := Fixtures.board None 0 (fun _ => Fixtures.pm_ok) (Ret (Response true "OK")) in
  fst (run_uploader E Send_enviro ∅ Fixtures.w0) = Raise no_base.
Proof.
  apply (uploader_without_api_url _ Send_enviro ∅ Fixtures.w0). reflexivity.
Defined.

(** ** Effects of the loop's pieces *)

Lemma run_uploader_effect E f values w :
  let w' := snd (run_uploader E f values w) in
  steady w w' /\ calls_of (trace w') = calls_of (trace w) ++ [(f, values)].
Proof.
  pose proof (run_uploader_cases E f values w) as H.
  destruct (post_outcome E f values w) as [[resp|e]|].
  - destruct H as (url & body & H). cbn zeta in H. rewrite H.
    destruct (ok resp); simpl; rewrite !calls_of_app; simpl;
      rewrite ?app_nil_r; (split; [repeat split|reflexivity]).
  - destruct H as (url & body & H). cbn zeta in H.
    destruct (isinstance e RequestException).
    + destruct H as [msg ->]. simpl. rewrite !calls_of_app; simpl.
      rewrite ?app_nil_r. split; [repeat split|reflexivity].
    + rewrite H. simpl. rewrite !calls_of_app; simpl.
      rewrite ?app_nil_r. split; [repeat split|reflexivity].
  - destruct H as (e & -> & _). simpl. rewrite !calls_of_app; simpl.
    split; [repeat split|reflexivity].
Qed.

(** The part of a timer branch that runs once the timer has been stamped:
    the send and the report of its outcome. *)
Lemma report_effect E f values (ok_msg fail_msg : string) w :
  let c := (sent <- run_uploader E f values ;;
            if sent : bool then logging_info (Text ok_msg)
            else logging_warning (Text fail_msg))%py in
  steady w (snd (c w)) /\
  calls_of (trace (snd (c w))) = calls_of (trace w) ++ [(f, values)].
Proof.
  cbn zeta. unfold bind.
  pose proof (run_uploader_effect E f values w) as [Hs Hc].
  destruct (run_uploader E f values w) as [[sent|e] w1]; simpl in *; [|auto].
  destruct sent; unfold logging_info, logging_warning, emit; simpl;
    rewrite calls_of_app; simpl; rewrite app_nil_r; auto.
Qed.

Lemma pm_branch_skip E pm_values w :
  fgt (time_since_update w) (float_lit 300 0) = false ->
  pm_branch E pm_values w = (Ret tt, w).
Proof. unfold pm_branch. now intros ->. Qed.

Lemma enviro_branch_skip E enviro_values w :
  fgt (time_since_update2 w) (float_lit 900 0) = false ->
  enviro_branch E enviro_values w = (Ret tt, w).
Proof. unfold enviro_branch. now intros ->. Qed.

(** The world in which [send_pm_data] starts: the reading is logged and
    [update_time] already holds a fresh clock reading. *)
Lemma pm_branch_taken E pm_values w :
  fgt (time_since_update w) (float_lit 300 0) = true ->
  let w2 := with_update_time (time_src E (calls w Clock))
              (with_calls (bump Clock (calls w))
                 (with_trace (trace w ++ [Log INFO (Repr pm_values)]) w)) in
  pm_branch E pm_values w =
  (sent <- send_pm_data E pm_values ;;
   if sent : bool then logging_info (Text "API pm Response: OK")
   else logging_warning (Text "API pm Response: Failed"))%py w2.
Proof. unfold pm_branch. intros ->. reflexivity. Qed.

Lemma enviro_branch_taken E enviro_values w :
  fgt (time_since_update2 w) (float_lit 900 0) = true ->
  let w2 := with_update_time2 (time_src E (calls w Clock))
              (with_calls (bump Clock (calls w))
                 (with_trace (trace w ++ [Log INFO (Repr enviro_values)]) w)) in
  enviro_branch E enviro_values w =
  (sent <- send_enviro_data E enviro_values ;;
   if sent : bool then logging_info (Text "API enviro Response: OK")
   else logging_warning (Text "API enviro Response: Failed"))%py w2.
Proof. unfold enviro_branch. intros ->. reflexivity. Qed.

Lemma pm_branch_effect E pm_values w :
  let w' := snd (pm_branch E pm_values w) in
  update_time2 w' = update_time2 w /\
  time_since_update w' = time_since_update w /\
  time_since_update2 w' = time_since_update2 w /\
  if fgt (time_since_update w) (float_lit 300 0) then
    update_time w' = time_src E (calls w Clock) /\
    calls w' Clock = S (calls w Clock) /\
    calls_of (trace w') = calls_of (trace w) ++ [(Send_pm, pm_values)]
  else w' = w.
Proof.
  destruct (fgt (time_since_update w) (float_lit 300 0)) eqn:Hdue.
  - rewrite (pm_branch_taken E pm_values w Hdue).
    match goal with |- context [?c ?w2] =>
      match c with bind _ _ =>
        pose proof (report_effect E Send_pm pm_values "API pm Response: OK"
                      "API pm Response: Failed" w2) as [Hs Hc]
      end
    end.
    cbn zeta in *. simpl run_uploader in *.
    destruct Hs as (H1 & H2 & H3 & H4 & H5).
    cbn [update_time update_time2 time_since_update time_since_update2 calls trace
         with_update_time with_update_time2 with_calls with_trace] in H1, H2, H3, H4, H5, Hc.
    rewrite bump_same in H5. rewrite calls_of_app in Hc. simpl calls_of in Hc.
    rewrite app_nil_r in Hc. auto 10.
  - rewrite (pm_branch_skip E pm_values w Hdue). simpl. auto.
Qed.

Lemma enviro_branch_effect E enviro_values w :
  let w' := snd (enviro_branch E enviro_values w) in
  update_time w' = update_time w /\
  time_since_update w' = time_since_update w /\
  time_since_update2 w' = time_since_update2 w /\
  if fgt (time_since_update2 w) (float_lit 900 0) then
    update_time2 w' = time_src E (calls w Clock) /\
    calls w' Clock = S (calls w Clock) /\
    calls_of (trace w') = calls_of (trace w) ++ [(Send_enviro, enviro_values)]
  else w' = w.
Proof.
  destruct (fgt (time_since_update2 w) (float_lit 900 0)) eqn:Hdue.
  - rewrite (enviro_branch_taken E enviro_values w Hdue).
    match goal with |- context [?c ?w2] =>
      match c with bind _ _ =>
        pose proof (report_effect E Send_enviro enviro_values "API enviro Response: OK"
                      "API enviro Response: Failed" w2) as [Hs Hc]
      end
    end.
    cbn zeta in *. simpl run_uploader in *.
    destruct Hs as (H1 & H2 & H3 & H4 & H5).
    cbn [update_time update_time2 time_since_update time_since_update2 calls trace
         with_update_time with_update_time2 with_calls with_trace] in H1, H2, H3, H4, H5, Hc.
    rewrite bump_same in H5. rewrite calls_of_app in Hc. simpl calls_of in Hc.
    rewrite app_nil_r in Hc. auto 10.
  - rewrite (enviro_branch_skip E enviro_values w Hdue). simpl. auto.
Qed.

Lemma measure_effect E w :
  match measure E w with
  | (Ret v, w1) =>
      update_time w1 = update_time w /\ update_time2 w1 = update_time2 w /\
      calls w1 Clock = S (S (calls w Clock)) /\
      calls_of (trace w1) = calls_of (trace w) /\
      time_since_update w1 = fsub (time_src E (calls w Clock)) (update_time w) /\
      time_since_update2 w1 = fsub (time_src E (S (calls w Clock))) (update_time2 w) /\
      exists wa wb, read_enviro_values E w = (Ret (fst v), wa) /\
                    read_pm_values E wa = (Ret (snd v), wb)
  | (Raise _, w1) => quiet w w1
  end.
Proof.
  unfold measure, bind.
  pose proof (quiet_read_enviro_values E w) as Qa.
  destruct (read_enviro_values E w) as [[ev|e] wa] eqn:Ea; simpl in Qa; [|assumption].
  pose proof (quiet_read_pm_values E wa) as Qb.
  destruct (read_pm_values E wa) as [[pv|e] wb] eqn:Eb; simpl in Qb;
    [|eapply quiet_trans; eassumption].
  destruct (quiet_trans _ _ _ Qa Qb) as ((H1 & H2 & H3 & H4 & H5) & H6 & H7).
  unfold time_time, bind, tick, ret; simpl.
  rewrite !bump_same, H1, H2, H5. repeat split; try assumption. eauto.
Qed.

(** ** Start-up *)

(** The module-level statements stamp both timers with the first two clock
    readings and log the start. *)
Lemma startup_stamps E w :
  let out := startup E w in
  fst out = Ret tt /\
  update_time (snd out) = time_src E (calls w Clock) /\
  update_time2 (snd out) = time_src E (S (calls w Clock)) /\
  trace (snd out) = trace w ++ [Log INFO (Text "Starting Enviro+ Data Send")].
Proof.
  unfold startup, time_time, logging_info, emit, bind, tick, ret. simpl.
  rewrite bump_same. repeat split.
Qed.

(** ** One pass of the loop *)

Lemma iteration_cases E w :
  match loop_body E w with
  | (Ret _, w1) => iteration E w = (Ret tt, w1)
  | (Raise e, w1) =>
      iteration E w =
      if isinstance e Exception
      then (Ret tt, warned ("Main Loop Exception: " +:+ exn_str e) w1)
      else (Raise e, w1)
  end.
Proof.
  unfold iteration, try_except.
  destruct (loop_body E w) as [[[]|e] w1]; [reflexivity|].
  destruct (isinstance e Exception); reflexivity.
Qed.

(** Only an exception that does not derive from [Exception] leaves a pass. *)
Lemma iteration_raises E w e :
  fst (iteration E w) = Raise e -> isinstance e Exception = false.
Proof.
  pose proof (iteration_cases E w) as H.
  destruct (loop_body E w) as [[[]|e'] w1]; rewrite H; [discriminate|].
  destruct (isinstance e' Exception) eqn:He; [discriminate|].
  now intros [= <-].
Qed.

Lemma run_shift E k : forall w, run E (S k) w = run E k (snd (iteration E w)).
Proof.
  induction k as [|k IH]; intros w; [reflexivity|].
  simpl. simpl in IH. now rewrite IH.
Qed.

(** As long as every pass returns, the loop is the succession of its passes:
    each starts in the world the previous one left. *)
Lemma main_loop_alive E n : forall w,
  (forall i, (i < n)%nat -> fst (iteration E (run E i w)) = Ret tt) ->
  main_loop E n w = (Ret tt, run E n w).
Proof.
  induction n as [|n IH]; intros w Halive; [reflexivity|].
  rewrite run_shift. simpl main_loop. unfold bind.
  pose proof (Halive 0%nat ltac:(lia)) as H0. simpl run in H0.
  destruct (iteration E w) as [[[]|e] w1] eqn:Hit; simpl in H0; [|discriminate].
  simpl snd. apply IH. intros i Hi.
  specialize (Halive (S i) ltac:(lia)). rewrite run_shift, Hit in Halive. exact Halive.
Qed.

(** The first pass that lets an exception through ends the loop, in the
    world that pass left. *)
Lemma main_loop_ends E n : forall w k e,
  (k < n)%nat ->
  (forall i, (i < k)%nat -> fst (iteration E (run E i w)) = Ret tt) ->
  fst (iteration E (run E k w)) = Raise e ->
  main_loop E n w = (Raise e, run E (S k) w).
Proof.
  induction n as [|n IH]; intros w k e Hk Halive Hraise; [lia|].
  simpl main_loop. unfold bind. destruct k as [|k].
  - simpl run in *. destruct (iteration E w) as [[[]|e'] w1]; simpl in *; [discriminate|].
    now injection Hraise as ->.
  - pose proof (Halive 0%nat ltac:(lia)) as H0. simpl run in H0.
    rewrite (run_shift E (S k)). rewrite run_shift in Hraise.
    destruct (iteration E w) as [[[]|e'] w1] eqn:Hit; simpl in H0; [|discriminate].
    simpl snd in *. apply IH; [lia| |assumption].
    intros i Hi. specialize (Halive (S i) ltac:(lia)).
    rewrite run_shift, Hit in Halive. exact Halive.
Qed.

(** *** Computations that raise only [Exception]s *)

Lemma graceful_ret {A} (a : A) : graceful (ret a).
Proof. intros w e w'. discriminate. Qed.

Lemma graceful_raise {A} e : isinstance e Exception = true -> graceful (raise (A := A) e).
Proof. intros He w e' w' [= <- _]. assumption. Qed.

Lemma graceful_lift {A} (r : Result A) : ordinary r -> graceful (lift r).
Proof. intros Hr w e w'. unfold lift. intros [= -> _]. exact Hr. Qed.

Lemma graceful_tick d : graceful (tick d).
Proof. intros w e w'. discriminate. Qed.

Lemma graceful_emit ev : graceful (emit ev).
Proof. intros w e w'. discriminate. Qed.

Lemma graceful_set (f : World -> World) : graceful (fun w => (Ret tt, f w)).
Proof. intros w e w'. discriminate. Qed.

Lemma graceful_bind {A B} (c : M A) (k : A -> M B) :
  graceful c -> (forall a, graceful (k a)) -> graceful (bind c k).
Proof.
  intros Hc Hk w e w'. unfold bind.
  destruct (c w) as [[a|e0] w1] eqn:Hcw.
  - apply Hk.
  - intros [= <- _]. eapply Hc, Hcw.
Qed.

Lemma graceful_try {A} (c : M A) (h : exn -> option (M A)) :
  graceful c -> (forall e k, h e = Some k -> graceful k) -> graceful (try_except c h).
Proof.
  intros Hc Hh w e w'. unfold try_except.
  destruct (c w) as [[a|e0] w1] eqn:Hcw; [discriminate|].
  destruct (h e0) as [k|] eqn:He.
  - eapply Hh, He.
  - intros [= <- _]. eapply Hc, Hcw.
Qed.

Lemma ordinary_float_of_int n : ordinary (float_of_int n).
Proof. unfold float_of_int. destruct (float_lit n 0); simpl; auto. Qed.

Lemma ordinary_py_int x : ordinary (py_int x).
Proof. destruct x; simpl; auto. Qed.

Lemma graceful_getitem values k : graceful (getitem values k).
Proof.
  unfold getitem. destruct (values !! k); [apply graceful_ret|].
  now apply graceful_raise.
Qed.

Lemma graceful_str_add base path : graceful (str_add base path).
Proof.
  unfold str_add. destruct base; [apply graceful_ret|].
  now apply graceful_raise.
Qed.

Create HintDb graceful.

#[local] Hint Resolve graceful_ret graceful_lift graceful_tick graceful_emit graceful_set
  graceful_getitem graceful_str_add ordinary_float_of_int ordinary_py_int : graceful.

(** Walks down a straight-line computation, one bind at a time. *)
Ltac graceful_steps :=
  repeat first
    [ solve [eauto with graceful]
    | apply graceful_bind; [|intros ?] ].

Section Uninterrupted.

Variable E : Env.
Hypothesis HE : uninterrupted E.

Lemma graceful_read_enviro_values : graceful (read_enviro_values E).
Proof.
  destruct HE as (Hcpu & Htemp & Hp & Hh & Hg & _).
  unfold read_enviro_values, get_cpu_temperature, bme280_get_temperature,
    bme280_get_pressure, bme280_get_humidity, gas_read_all, strftime_now.
  graceful_steps.
Qed.

Lemma graceful_pms5003_read : graceful (pms5003_read E).
Proof.
  destruct HE as (_ & _ & _ & _ & _ & Hpms & _).
  unfold pms5003_read. graceful_steps.
Qed.

Lemma graceful_read_pm_values : graceful (read_pm_values E).
Proof.
  pose proof graceful_pms5003_read as Hread.
  destruct HE as (_ & _ & _ & _ & _ & _ & Hreset & _).
  unfold read_pm_values, strftime_now.
  apply graceful_bind; [graceful_steps|intros date].
  apply graceful_try; [graceful_steps|].
  intros e k Hk. destruct (_ || _); [|discriminate].
  injection Hk as <-. unfold logging_info, pms5003_reset. graceful_steps.
Qed.

Lemma graceful_transport_handler who e k :
  transport_handler who e = Some k -> graceful k.
Proof.
  unfold transport_handler, logging_warning.
  destruct (isinstance e ConnectionError); [intros [= <-]; graceful_steps|].
  destruct (isinstance e Timeout); [intros [= <-]; graceful_steps|].
  destruct (isinstance e RequestException); [intros [= <-]; graceful_steps|discriminate].
Qed.

Lemma graceful_run_uploader f values : graceful (run_uploader E f values).
Proof.
  destruct HE as (_ & _ & _ & _ & _ & _ & _ & Hpost).
  rewrite run_uploader_unfold. unfold requests_post, logging_warning.
  apply graceful_bind; [graceful_steps|intros _].
  apply graceful_bind.
  - apply graceful_try; [|apply graceful_transport_handler].
    apply graceful_bind; [graceful_steps|intros url].
    apply graceful_bind; [|intros body; graceful_steps].
    destruct f; unfold body_of, pm_body, enviro_body; graceful_steps.
  - intros [resp|]; [|graceful_steps]. destruct (ok resp); graceful_steps.
Qed.

Lemma graceful_branch f values : graceful (branch E f values).
Proof.
  pose proof (graceful_run_uploader f values) as Hup.
  intros w e w'.
  destruct f; unfold branch, pm_branch, enviro_branch;
    simpl run_uploader in Hup;
    (match goal with |- context [fgt ?x ?y] => destruct (fgt x y) end; [|discriminate]);
    revert w e w';
    match goal with |- forall w e w', ?c w = _ -> _ => change (graceful c) end;
    unfold time_time, logging_info, logging_warning.
  - apply graceful_bind; [graceful_steps|intros _].
    apply graceful_bind; [graceful_steps|intros t].
    apply graceful_bind; [graceful_steps|intros _].
    apply graceful_bind; [assumption|intros [|]; graceful_steps].
  - apply graceful_bind; [graceful_steps|intros _].
    apply graceful_bind; [graceful_steps|intros t].
    apply graceful_bind; [graceful_steps|intros _].
    apply graceful_bind; [assumption|intros [|]; graceful_steps].
Qed.

Lemma graceful_loop_body : graceful (loop_body E).
Proof.
  pose proof graceful_read_enviro_values. pose proof graceful_read_pm_values.
  unfold loop_body, measure, time_time.
  apply graceful_bind.
  - apply graceful_bind; [assumption|intros ?].
    apply graceful_bind; [assumption|intros ?]. graceful_steps.
  - intros v. apply graceful_bind; [apply (graceful_branch Send_pm)|intros _].
    apply (graceful_branch Send_enviro).
Qed.

(** With no interrupt, every pass returns. *)
Lemma iteration_returns w : fst (iteration E w) = Ret tt.
Proof.
  pose proof (iteration_cases E w) as H.
  destruct (loop_body E w) as [[[]|e] w1] eqn:Hb; rewrite H; [reflexivity|].
  now rewrite (graceful_loop_body w e w1 Hb).
Qed.

End Uninterrupted.

(** C7, as stated, fails.  Ctrl-C while the particulate sensor is being
    read raises [KeyboardInterrupt], which [except Exception] does not
    catch: the first pass logs no warning and the exception ends the loop,
    the two passes that should follow never start. *)
Lemma loop_interrupted_counterexample :
  let E := Fixtures.board Fixtures.api 0 (fun _ => Raise Fixtures.interrupt)
             (Ret (Response true "OK")) in
  let out := main_loop E 3 Fixtures.w0 in
  isinstance Fixtures.interrupt Exception = false /\
  fst (loop_body E Fixtures.w0) = Raise Fixtures.interrupt /\
  fst (iteration E Fixtures.w0) = Raise Fixtures.interrupt /\
  fst out = Raise Fixtures.interrupt /\
  warnings (trace (snd out)) = [] /\
  calls (snd out) Pms = 1%nat.
Proof. vm_compute. repeat split. Qed.

(** C7, amended.  What the body of the loop raises is caught by the handler
    of the pass exactly when it derives from [Exception]: the pass then
    returns, having added one warning that quotes the exception; any other
    exception leaves the pass as it is, with no warning.  As long as the
    passes return, the loop is the succession of its passes, each starting
    in the world the previous one left, with nothing in between.  The loop
    ends only at the first pass that lets an exception through, which does
    not derive from [Exception].  When no collaborator raises outside
    [Exception], no number of passes ends the loop. *)
Theorem loop_survives (E : Env) (w : World) :
  (forall e w1, loop_body E w = (Raise e, w1) ->
     iteration E w =
     if isinstance e Exception
     then (Ret tt, warned ("Main Loop Exception: " +:+ exn_str e) w1)
     else (Raise e, w1)) /\
  (forall n,
     (forall i, (i < n)%nat -> fst (iteration E (run E i w)) = Ret tt) ->
     main_loop E n w = (Ret tt, run E n w)) /\
  (forall n k e,
     (k < n)%nat ->
     (forall i, (i < k)%nat -> fst (iteration E (run E i w)) = Ret tt) ->
     fst (iteration E (run E k w)) = Raise e ->
     main_loop E n w = (Raise e, run E (S k) w) /\ isinstance e Exception = false) /\
  (uninterrupted E -> forall n, main_loop E n w = (Ret tt, run E n w)).
Proof.
  split; [|split; [|split]].
  - intros e w1 H. pose proof (iteration_cases E w) as Hc. now rewrite H in Hc.
  - intros n. apply main_loop_alive.
  - intros n k e Hk Halive Hraise. split.
    + now apply main_loop_ends.
    + eapply iteration_raises, Hraise.
  - intros HE n. apply main_loop_alive. intros i _. now apply iteration_returns.
Qed.

Lemma loop_survives_witness :
  let E := Fixtures.board Fixtures.api 0 (fun _ => Raise Fixtures.serial_down)
             (Ret (Response true "OK")) in
  iteration E Fixtures.w0 =
  (Ret tt,
   warned "Main Loop Exception: PMS5003 Read Timeout: Failed to read start of frame byte"
     (snd (loop_body E Fixtures.w0))) /\
  main_loop E 2 Fixtures.w0 = (Ret tt, run E 2 Fixtures.w0).
Proof.
  intros E. split.
  - apply (proj1 (loop_survives E Fixtures.w0) Fixtures.serial_down).
    vm_compute. reflexivity.
  - apply (proj2 (proj2 (proj2 (loop_survives E Fixtures.w0)))).
    repeat split; intros; simpl; try exact I; reflexivity.
Defined.

Lemma iteration_effect E w :
  let w' := snd (iteration E w) in
  match measure E w with
  | (Raise _, _) =>
      pm_checked E w = None /\ enviro_checked E w = None /\
      calls_of (trace w') = calls_of (trace w) /\
      update_time w' = update_time w /\ update_time2 w' = update_time2 w
  | (Ret v, w1) =>
      let pm_due := fgt (time_since_update w1) (float_lit 300 0) in
      let enviro_due := fgt (time_since_update2 w1) (float_lit 900 0) in
      let stamp := time_src E (S (S (calls w Clock))) in
      pm_checked E w = Some (time_since_update w1) /\
      update_time w' = (if pm_due then stamp else update_time w) /\
      match pm_branch E (snd v) w1 with
      | (Raise _, _) =>
          pm_due = true /\ enviro_checked E w = None /\
          calls_of (trace w') = calls_of (trace w) ++ [(Send_pm, snd v)] /\
          update_time2 w' = update_time2 w
      | (Ret _, _) =>
          enviro_checked E w = Some (time_since_update2 w1) /\
          calls_of (trace w') =
            calls_of (trace w) ++
            (if pm_due then [(Send_pm, snd v)] else []) ++
            (if enviro_due then [(Send_enviro, fst v)] else []) /\
          update_time2 w' =
            (if enviro_due then
               (if pm_due then time_src E (S (S (S (calls w Clock)))) else stamp)
             else update_time2 w)
      end
  end.
Proof.
  pose proof (iteration_cases E w) as Hit.
  unfold pm_checked, enviro_checked. unfold loop_body in Hit. unfold bind in *.
  pose proof (measure_effect E w) as Hm.
  destruct (measure E w) as [[v|e] w1].
  2: { rewrite Hit. destruct Hm as ((H1 & H2 & _) & _ & H7).
       destruct (isinstance e Exception); simpl;
         rewrite ?calls_of_app, ?app_nil_r; auto. }
  destruct Hm as (M1 & M2 & M3 & M4 & M5 & M6 & _).
  pose proof (pm_branch_effect E (snd v) w1) as Hp. cbn zeta in Hp.
  destruct (pm_branch E (snd v) w1) as [[[]|e] w2] eqn:Hpb; simpl snd in Hp.
  - pose proof (enviro_branch_effect E (fst v) w2) as He. cbn zeta in He.
    destruct Hp as (P1 & P2 & P3 & P4). destruct He as (E1 & E2 & E3 & E4).
    rewrite P3 in E4.
    assert (Hw' : calls_of (trace (snd (iteration E w))) =
                  calls_of (trace (snd (enviro_branch E (fst v) w2))) /\
                  update_time (snd (iteration E w)) =
                  update_time (snd (enviro_branch E (fst v) w2)) /\
                  update_time2 (snd (iteration E w)) =
                  update_time2 (snd (enviro_branch E (fst v) w2))).
    { destruct (enviro_branch E (fst v) w2) as [[[]|e] w3]; rewrite Hit;
        [|destruct (isinstance e Exception)]; simpl;
        rewrite ?calls_of_app, ?app_nil_r; auto. }
    destruct Hw' as (-> & -> & ->). cbn zeta. rewrite E1, P3.
    destruct (fgt (time_since_update w1) (float_lit 300 0));
      destruct (fgt (time_since_update2 w1) (float_lit 900 0)).
    + destruct P4 as (P4 & P5 & P6). destruct E4 as (E4 & E5 & E6).
      rewrite E6, P6, M4, E4, P4, P5, M3, <- app_assoc. repeat split.
    + destruct P4 as (P4 & P5 & P6). rewrite E4, P6, M4, P4, P1, M3, M2, app_nil_r. repeat split.
    + subst w2. destruct E4 as (E4 & E5 & E6). rewrite E6, M4, E4, M3, M1. repeat split.
    + rewrite E4. subst w2. rewrite M4, M1, M2, ?app_nil_r. repeat split.
  - rewrite Hit.
    destruct Hp as (P1 & P2 & P3 & P4). cbn zeta.
    destruct (fgt (time_since_update w1) (float_lit 300 0)) eqn:Hdue.
    + destruct P4 as (P4 & P5 & P6).
      destruct (isinstance e Exception);
        cbn [snd trace update_time update_time2 warned with_trace];
        rewrite ?calls_of_app, ?app_nil_r, P6, M4, P4, P1, M3, M2; repeat split.
    + rewrite (pm_branch_skip E (snd v) w1 Hdue) in Hpb. discriminate.
Qed.

Lemma sends_calls_of f tr tr' :
  calls_of tr' = calls_of tr -> sends f tr' = sends f tr.
Proof. unfold sends. now intros ->. Qed.

Lemma sends_calls_of_app f tr tr' extra :
  calls_of tr' = calls_of tr ++ extra ->
  sends f tr' = (sends f tr + length (filter (fun c => fst c = f) extra))%nat.
Proof. unfold sends. intros ->. now rewrite filter_app, length_app. Qed.

Lemma checked_elapsed E f w x :
  checked E f w = Some x -> x = elapsed_since E f w.
Proof.
  pose proof (measure_effect E w) as Hm.
  destruct f; unfold checked, pm_checked, enviro_checked, elapsed_since, bind.
  - destruct (measure E w) as [[v|e] w1]; [|discriminate].
    destruct Hm as (_ & _ & _ & _ & M5 & _). intros [= <-]. assumption.
  - destruct (measure E w) as [[v|e] w1]; [|discriminate].
    destruct Hm as (_ & _ & _ & _ & _ & M6 & _).
    pose proof (pm_branch_effect E (snd v) w1) as (_ & _ & P3 & _).
    destruct (pm_branch E (snd v) w1) as [[[]|e] w2]; [|discriminate].
    intros [= <-]. simpl in P3. congruence.
Qed.

Lemma due_elapsed E f w :
  due E f w = true -> fgt (elapsed_since E f w) (float_lit (limit f) 0) = true.
Proof.
  unfold due, exceeds. destruct (checked E f w) as [x|] eqn:Hx; [|discriminate].
  now rewrite (checked_elapsed E f w x Hx).
Qed.

(** What one pass does to the sends and to the timer of each reading type. *)
Lemma iteration_summary E w f :
  let w' := snd (iteration E w) in
  sends f (trace w') = (sends f (trace w) + (if due E f w then 1 else 0))%nat /\
  timer f w' = (if due E f w then time_src E (stamp_index E f w) else timer f w).
Proof.
  pose proof (iteration_effect E w) as H. cbn zeta in *.
  unfold stamp_index, due, checked, exceeds, timer.
  destruct (measure E w) as [[v|e] w1].
  2: { destruct H as (-> & -> & Hc & H1 & H2).
       rewrite (sends_calls_of f _ _ Hc). destruct f; auto. }
  destruct H as (-> & H1 & H).
  destruct (pm_branch E (snd v) w1) as [[[]|e] w2].
  - destruct H as (-> & Hc & H2).
    rewrite (sends_calls_of_app f _ _ _ Hc), filter_app, length_app.
    destruct f; cbn [limit];
      destruct (fgt (time_since_update w1) (float_lit 300 0));
      destruct (fgt (time_since_update2 w1) (float_lit 900 0)); simpl; auto.
  - destruct H as (Hdue & -> & Hc & H2).
    rewrite (sends_calls_of_app f _ _ _ Hc).
    destruct f; cbn [limit]; rewrite Hdue in *; simpl; auto.
Qed.

(** ** The scheduler *)

Lemma run_sends E f n : forall w,
  (forall i, (i < n)%nat -> due E f (run E i w) = false) ->
  sends f (trace (run E n w)) = sends f (trace w) /\ timer f (run E n w) = timer f w.
Proof.
  induction n as [|n IH]; intros w Hnot; [split; reflexivity|].
  destruct (IH w) as [Hs Ht]; [intros i Hi; apply Hnot; lia|].
  simpl run. destruct (iteration_summary E (run E n w) f) as [Hs' Ht'].
  rewrite (Hnot n) in Hs', Ht' by lia.
  rewrite Hs', Ht', Hs, Ht. split; [lia | reflexivity].
Qed.

(** C1, as stated, fails.  With no base URL and both timers overdue, the
    pass computes an enviro elapsed time of 1000 s, above 900, and yet never
    enters [send_enviro_data]: the air-quality send raised first.  And when
    the particulate sensor is down, nothing is sent although the clock is
    1000 s past both stamps. *)
Lemma enviro_send_skipped_counterexample :
  let E := Fixtures.board None 1000 (fun _ => Fixtures.pm_ok) (Ret (Response true "OK")) in
  let w' := snd (iteration E Fixtures.w0) in
  let E2 := Fixtures.board Fixtures.api 1000 (fun _ => Raise Fixtures.serial_down)
              (Ret (Response true "OK")) in
  let w2 := snd (iteration E2 Fixtures.w0) in
  (time_since_update2 w' = float_lit 1000 0 /\
   fgt (time_since_update2 w') (float_lit 900 0) = true /\
   sends Send_enviro (trace w') = 0%nat /\
   sends Send_pm (trace w') = 1%nat) /\
  (fgt (elapsed_since E2 Send_pm Fixtures.w0) (float_lit 300 0) = true /\
   sends Send_pm (trace w2) = 0%nat).
Proof. vm_compute. repeat split. Qed.

(** C1, amended.  In a pass, an uploader is entered exactly when the pass
    reaches the timer test of its reading type and the elapsed time tested
    there exceeds the interval; it is then entered once, and otherwise not at
    all.  The elapsed time tested is the clock reading taken for that timer
    minus the stamp of the last send attempt.  Hence the first send of a type
    happens in the first pass that reaches its test with the interval
    exceeded, the stamp being unchanged until then. *)
Theorem send_iff_due (E : Env) (w : World) (f : uploader) :
  let w' := snd (iteration E w) in
  (sends f (trace w') = S (sends f (trace w)) <-> due E f w = true) /\
  (sends f (trace w') = sends f (trace w) <-> due E f w = false) /\
  (forall x, checked E f w = Some x -> x = elapsed_since E f w) /\
  (due E f w = true -> fgt (elapsed_since E f w) (float_lit (limit f) 0) = true) /\
  forall n,
    (forall i, (i < n)%nat -> due E f (run E i w) = false) ->
    sends f (trace (run E n w)) = sends f (trace w) /\
    timer f (run E n w) = timer f w /\
    (due E f (run E n w) = true ->
     sends f (trace (run E (S n) w)) = S (sends f (trace w))).
Proof.
  cbn zeta. destruct (iteration_summary E w f) as [Hs _].
  split; [|split; [|split; [|split]]].
  - rewrite Hs. destruct (due E f w); split; intros; try reflexivity; try discriminate; lia.
  - rewrite Hs. destruct (due E f w); split; intros; try reflexivity; try discriminate; lia.
  - apply checked_elapsed.
  - apply due_elapsed.
  - intros n Hnot. destruct (run_sends E f n w Hnot) as [Hn Ht].
    split; [assumption|]. split; [assumption|].
    intros Hdue. simpl run.
    destruct (iteration_summary E (run E n w) f) as [Hs' _].
    rewrite Hs', Hdue, Hn. lia.
Qed.

Lemma send_iff_due_witness :
  sends Send_pm (trace (run Fixtures.board_late 1 Fixtures.w0)) = 0%nat /\
  sends Send_pm (trace (run Fixtures.board_late 2 Fixtures.w0)) = 1%nat.
Proof.
  assert (Hnot : forall i, (i < 1)%nat ->
            due Fixtures.board_late Send_pm (run Fixtures.board_late i Fixtures.w0) = false).
  { intros i Hi. assert (i = 0%nat) as -> by lia. vm_compute. reflexivity. }
  destruct (proj2 (proj2 (proj2 (proj2
    (send_iff_due Fixtures.board_late Fixtures.w0 Send_pm)))) 1%nat Hnot) as (H1 & _ & H2).
  split; [exact H1|]. apply H2. vm_compute. reflexivity.
Defined.

(** C5. A pass that enters an uploader has stamped the timer of that
    reading type with a fresh clock reading, whatever the upload then does
    (the statement holds for every HTTP client); a pass that does not enter
    it leaves that timer as it was.  So each timer is changed only by the
    send of its own type: the air-quality branch never writes
    [update_time2] and the enviro branch never writes [update_time].  In
    particular, when the elapsed times are 301 s and 500 s, [send_pm_data]
    is entered once, [send_enviro_data] is not, [update_time] is stamped and
    [update_time2] is untouched. *)
Theorem send_resets_own_timer (E : Env) (w : World) :
  let w' := snd (iteration E w) in
  (forall f,
     (sends f (trace w') = S (sends f (trace w)) ->
      timer f w' = time_src E (stamp_index E f w)) /\
     (sends f (trace w') = sends f (trace w) -> timer f w' = timer f w) /\
     (sends f (trace w') = sends f (trace w) \/
      sends f (trace w') = S (sends f (trace w)))) /\
  (forall v w1,
     measure E w = (Ret v, w1) ->
     time_since_update w1 = float_lit 301 0 ->
     time_since_update2 w1 = float_lit 500 0 ->
     sends Send_pm (trace w') = S (sends Send_pm (trace w)) /\
     sends Send_enviro (trace w') = sends Send_enviro (trace w) /\
     update_time w' = time_src E (S (S (calls w Clock))) /\
     update_time2 w' = update_time2 w) /\
  (forall pm_values w1,
     update_time2 (snd (pm_branch E pm_values w1)) = update_time2 w1) /\
  (forall enviro_values w1,
     update_time (snd (enviro_branch E enviro_values w1)) = update_time w1).
Proof.
  cbn zeta. split; [|split; [|split]].
  3: { intros pm_values w1. apply (pm_branch_effect E pm_values w1). }
  3: { intros enviro_values w1. apply (enviro_branch_effect E enviro_values w1). }
  - intros f. destruct (iteration_summary E w f) as [Hs Ht].
    rewrite Hs, Ht. destruct (due E f w).
    + split; [reflexivity|]. split; [lia|]. right. lia.
    + split; [lia|]. split; [reflexivity|]. left. lia.
  - intros v w1 Hm H301 H500.
    destruct (iteration_summary E w Send_pm) as [Hs Ht].
    destruct (iteration_summary E w Send_enviro) as [Hs2 Ht2].
    assert (Hpm : due E Send_pm w = true).
    { unfold due, checked, pm_checked. rewrite Hm. simpl. rewrite H301. reflexivity. }
    assert (Hen : due E Send_enviro w = false).
    { unfold due, checked, enviro_checked, bind. rewrite Hm.
      pose proof (pm_branch_effect E (snd v) w1) as (_ & _ & P3 & _).
      destruct (pm_branch E (snd v) w1) as [[[]|e] w2]; [|reflexivity].
      simpl in P3. simpl. rewrite P3, H500. reflexivity. }
    rewrite Hpm in Hs, Ht. rewrite Hen in Hs2, Ht2.
    simpl in Ht, Ht2. rewrite Hs, Hs2, Ht, Ht2. repeat split; lia.
Qed.

Lemma send_resets_own_timer_witness :
  let E := Fixtures.board Fixtures.api 1000 (fun _ => Fixtures.pm_ok)
             (Ret (Response false "Bad Gateway")) in
  let w' := snd (iteration E Fixtures.w_mid) in
  sends Send_pm (trace w') = 1%nat /\
  sends Send_enviro (trace w') = 0%nat /\
  update_time w' = float_lit 1000 0 /\
  update_time2 w' = float_lit 500 0.
Proof.
  intros E w'.
  apply (proj1 (proj2 (send_resets_own_timer E Fixtures.w_mid))
           match fst (measure E Fixtures.w_mid) with Ret v => v | Raise _ => (∅, ∅) end
           (snd (measure E Fixtures.w_mid))).
  - vm_compute. reflexivity.
  - vm_compute. reflexivity.
  - vm_compute. reflexivity.
Defined.

(** ** Stamping before sending *)

Lemma run_sends_mono E f n w : (sends f (trace w) <= sends f (trace (run E n w)))%nat.
Proof.
  induction n as [|n IH]; [reflexivity|].
  simpl run. destruct (iteration_summary E (run E n w) f) as [Hs _]. lia.
Qed.

Lemma run_no_send E f n : forall w,
  sends f (trace (run E n w)) = sends f (trace w) ->
  forall i, (i < n)%nat -> due E f (run E i w) = false.
Proof.
  induction n as [|n IH]; intros w Hs i Hi; [lia|].
  simpl run in Hs. destruct (iteration_summary E (run E n w) f) as [Hs' _].
  pose proof (run_sends_mono E f n w) as Hmono.
  destruct (due E f (run E n w)) eqn:Hd; [lia|].
  destruct (decide (i = n)) as [->|Hne]; [assumption|].
  apply IH; lia.
Qed.

Lemma loop_body_pm_raise E w v w1 e w2 :
  measure E w = (Ret v, w1) -> pm_branch E (snd v) w1 = (Raise e, w2) ->
  loop_body E w = (Raise e, w2).
Proof. intros Hm Hp. unfold loop_body, bind. now rewrite Hm, Hp. Qed.

Lemma loop_body_enviro_raise E w v w1 w2 e w3 :
  measure E w = (Ret v, w1) -> pm_branch E (snd v) w1 = (Ret tt, w2) ->
  enviro_branch E (fst v) w2 = (Raise e, w3) ->
  loop_body E w = (Raise e, w3).
Proof. intros Hm Hp He. unfold loop_body, bind. now rewrite Hm, Hp, He. Qed.

(** C10. In both timer branches the uploader starts in a world whose timer
    already holds the fresh clock reading.  So when the send raises, the
    timer keeps that stamp: the handler of the pass, which catches the
    exception when it derives from [Exception] and logs it, does not touch
    the timer.  And in the passes that follow, the timer stays put until the
    next send of that type, which needs the clock to exceed the stamp by
    more than the interval. *)
Theorem timer_stamped_before_send (E : Env) (w : World) :
  (forall pm_values w1,
     fgt (time_since_update w1) (float_lit 300 0) = true ->
     exists w2, update_time w2 = time_src E (calls w1 Clock) /\
       pm_branch E pm_values w1 =
       (sent <- send_pm_data E pm_values ;;
        if sent : bool then logging_info (Text "API pm Response: OK")
        else logging_warning (Text "API pm Response: Failed"))%py w2) /\
  (forall enviro_values w1,
     fgt (time_since_update2 w1) (float_lit 900 0) = true ->
     exists w2, update_time2 w2 = time_src E (calls w1 Clock) /\
       enviro_branch E enviro_values w1 =
       (sent <- send_enviro_data E enviro_values ;;
        if sent : bool then logging_info (Text "API enviro Response: OK")
        else logging_warning (Text "API enviro Response: Failed"))%py w2) /\
  (forall v w1 e w2,
     measure E w = (Ret v, w1) -> pm_branch E (snd v) w1 = (Raise e, w2) ->
     iteration E w =
       (if isinstance e Exception
        then (Ret tt, warned ("Main Loop Exception: " +:+ exn_str e) w2)
        else (Raise e, w2)) /\
     update_time (snd (iteration E w)) = time_src E (stamp_index E Send_pm w)) /\
  (forall v w1 w2 e w3,
     measure E w = (Ret v, w1) -> pm_branch E (snd v) w1 = (Ret tt, w2) ->
     enviro_branch E (fst v) w2 = (Raise e, w3) ->
     iteration E w =
       (if isinstance e Exception
        then (Ret tt, warned ("Main Loop Exception: " +:+ exn_str e) w3)
        else (Raise e, w3)) /\
     update_time2 (snd (iteration E w)) = time_src E (stamp_index E Send_enviro w)) /\
  (forall f n,
     let w' := snd (iteration E w) in
     sends f (trace (run E n w')) = sends f (trace w') ->
     timer f (run E n w') = timer f w' /\
     (sends f (trace (run E (S n) w')) <> sends f (trace w') ->
      fgt (elapsed_since E f (run E n w')) (float_lit (limit f) 0) = true)).
Proof.
  split; [|split; [|split; [|split]]].
  - intros pm_values w1 Hdue. eexists. split; [|apply pm_branch_taken, Hdue]. reflexivity.
  - intros enviro_values w1 Hdue. eexists.
    split; [|apply enviro_branch_taken, Hdue]. reflexivity.
  - intros v w1 e w2 Hm Hp.
    pose proof (iteration_cases E w) as Hc.
    rewrite (loop_body_pm_raise E w v w1 e w2 Hm Hp) in Hc. split; [assumption|].
    pose proof (iteration_effect E w) as H. cbn zeta in H. rewrite Hm, Hp in H.
    destruct H as (_ & Hu & Hdue & _). rewrite Hdue in Hu. exact Hu.
  - intros v w1 w2 e w3 Hm Hp He.
    pose proof (iteration_cases E w) as Hc.
    rewrite (loop_body_enviro_raise E w v w1 w2 e w3 Hm Hp He) in Hc.
    split; [assumption|].
    destruct (iteration_summary E w Send_enviro) as [_ Ht]. simpl timer in Ht.
    assert (Hdue : due E Send_enviro w = true).
    { unfold due, checked, enviro_checked, bind. rewrite Hm, Hp. simpl.
      destruct (fgt (time_since_update2 w2) (float_lit 900 0)) eqn:Hd; [reflexivity|].
      rewrite (enviro_branch_skip E (fst v) w2 Hd) in He. discriminate. }
    now rewrite Hdue in Ht.
  - intros f n w' Hs.
    pose proof (run_no_send E f n w' Hs) as Hnot.
    destruct (run_sends E f n w' Hnot) as [_ Ht]. split; [assumption|].
    intros Hne. apply due_elapsed.
    simpl run in Hne. destruct (iteration_summary E (run E n w') f) as [Hs' _].
    destruct (due E f (run E n w')); [reflexivity|]. exfalso. apply Hne. lia.
Qed.

Lemma timer_stamped_before_send_witness :
  let E := Fixtures.board None 1000 (fun _ => Fixtures.pm_ok) (Ret (Response true "OK")) in
  update_time (snd (iteration E Fixtures.w0)) = float_lit 1000 0.
Proof.
  intros E.
  apply (proj1 (proj2 (proj2 (timer_stamped_before_send E Fixtures.w0)))
           match fst (measure E Fixtures.w0) with Ret v => v | Raise _ => (∅, ∅) end
           (snd (measure E Fixtures.w0))
           no_base
           (snd (pm_branch E Fixtures.pm_reading_ok (snd (measure E Fixtures.w0))))).
  - vm_compute. reflexivity.
  - vm_compute. reflexivity.
Defined.

(** ** What the readers return *)

Lemma lift_inv {A} (r : Result A) w a w1 :
  lift r w = (Ret a, w1) -> r = Ret a /\ w = w1.
Proof. unfold lift. now intros [= -> ->]. Qed.

Lemma tick_lift_inv {A} d (src : nat -> Result A) w a w1 :
  (n <- tick d ;; lift (src n))%py w = (Ret a, w1) ->
  src (calls w d) = Ret a /\ w1 = with_calls (bump d (calls w)) w.
Proof. unfold bind, tick, lift. now intros [= -> <-]. Qed.

Lemma tick_ret_inv {A} d (f : nat -> A) w a w1 :
  (n <- tick d ;; ret (f n))%py w = (Ret a, w1) ->
  a = f (calls w d) /\ w1 = with_calls (bump d (calls w)) w.
Proof. unfold bind, tick, ret. now intros [= <- <-]. Qed.

Lemma read_enviro_values_inv E w values w' :
  read_enviro_values E w = (Ret values, w') ->
  exists temp t raw pressure humidity data ox red n,
    cpu_src E (calls w CpuFile) = Ret temp /\
    float_of_int temp = Ret t /\
    temperature_src E (calls w BmeTemperature) = Ret raw /\
    pressure_src E (calls w BmePressure) = Ret pressure /\
    humidity_src E (calls w BmeHumidity) = Ret humidity /\
    gas_src E (calls w GasAdc) = Ret data /\
    py_int (fdiv (oxidising data) f1000) = Ret ox /\
    py_int (fdiv (reducing data) f1000) = Ret red /\
    py_int (fdiv (nh3 data) f1000) = Ret n /\
    values =
      <["nh3" := str_int n]> (<["reducing" := str_int red]> (<["oxidising" := str_int ox]>
      (<["humidity" := format_05_2f humidity]> (<["pressure" := format_05_2f pressure]>
      (<["temperature" :=
           format_05_2f (fsub raw (fdiv (fsub (fdiv t f1000) raw) comp_factor))]>
      (<["date" := now_src E (calls w Calendar)]> ∅)))))).
Proof.
  intros H. unfold read_enviro_values in H.
  apply bind_ret_inv in H as (cpu & w1 & H1 & H).
  unfold get_cpu_temperature in H1.
  apply bind_ret_inv in H1 as (i0 & w0 & [= <- <-] & H1).
  apply bind_ret_inv in H1 as (temp & ? & [Htemp <-]%lift_inv & H1).
  apply bind_ret_inv in H1 as (t & ? & [Ht <-]%lift_inv & [= <- <-]).
  apply bind_ret_inv in H as (raw & w2 & [Hraw ->]%tick_lift_inv & H).
  apply bind_ret_inv in H as (date & w3 & [-> ->]%tick_ret_inv & H).
  apply bind_ret_inv in H as (pressure & w4 & [Hp ->]%tick_lift_inv & H).
  apply bind_ret_inv in H as (humidity & w5 & [Hh ->]%tick_lift_inv & H).
  apply bind_ret_inv in H as (data & w6 & [Hg ->]%tick_lift_inv & H).
  apply bind_ret_inv in H as (ox & ? & [Hox <-]%lift_inv & H).
  apply bind_ret_inv in H as (red & ? & [Hred <-]%lift_inv & H).
  apply bind_ret_inv in H as (n & ? & [Hn <-]%lift_inv & [= <- _]).
  cbn [calls with_calls] in *.
  repeat rewrite bump_other in * by discriminate.
  exists temp, t, raw, pressure, humidity, data, ox, red, n.
  repeat split; assumption.
Qed.

(** Conversely the reader returns as soon as every collaborator answers and
    every conversion succeeds. *)
Lemma read_enviro_values_returns E w temp t raw pressure humidity data ox red n :
  cpu_src E (calls w CpuFile) = Ret temp ->
  float_of_int temp = Ret t ->
  temperature_src E (calls w BmeTemperature) = Ret raw ->
  pressure_src E (calls w BmePressure) = Ret pressure ->
  humidity_src E (calls w BmeHumidity) = Ret humidity ->
  gas_src E (calls w GasAdc) = Ret data ->
  py_int (fdiv (oxidising data) f1000) = Ret ox ->
  py_int (fdiv (reducing data) f1000) = Ret red ->
  py_int (fdiv (nh3 data) f1000) = Ret n ->
  exists values w', read_enviro_values E w = (Ret values, w').
Proof.
  intros Htemp Ht Hraw Hp Hh Hg Hox Hred Hn.
  unfold read_enviro_values, get_cpu_temperature, bme280_get_temperature,
    bme280_get_pressure, bme280_get_humidity, gas_read_all, strftime_now,
    bind, tick, lift, ret.
  repeat (cbn beta iota zeta; cbn [calls with_calls fst snd];
          repeat rewrite bump_other by discriminate;
          first [ rewrite Htemp | rewrite Ht | rewrite Hraw | rewrite Hp | rewrite Hh
                | rewrite Hg | rewrite Hox | rewrite Hred | rewrite Hn ]).
  cbn beta iota zeta. eauto.
Qed.

Lemma read_pm_values_inv E w values w' :
  read_pm_values E w = (Ret values, w') ->
  exists pm_values,
    values = store_pm (<["date" := now_src E (calls w Calendar)]> ∅) pm_values.
Proof.
  unfold read_pm_values, strftime_now, pms5003_read, pms5003_reset, logging_info,
    try_except, bind, tick, emit, lift, ret.
  cbn [calls trace with_calls with_trace].
  destruct (pms_src E _) as [first|e]; [intros [= <- _]; eauto|].
  destruct (_ || _); [|discriminate].
  cbn [calls trace with_calls with_trace].
  destruct (reset_src E _) as [[]|e1]; [|discriminate].
  destruct (pms_src E _) as [second|e2]; [intros [= <- _]; eauto | discriminate].
Qed.

(** C6. A reading returned by [read_enviro_values] has exactly the seven
    enviro fields and one returned by [read_pm_values] exactly the four
    air-quality fields, every value being a string; and whatever the loop
    passes to an uploader, in any number of passes, has exactly the fields
    of that uploader. *)
Theorem readings_are_complete (E : Env) (w : World) :
  (forall values w', read_enviro_values E w = (Ret values, w') ->
     dom values = list_to_set (fields Send_enviro)) /\
  (forall values w', read_pm_values E w = (Ret values, w') ->
     dom values = list_to_set (fields Send_pm)) /\
  (forall n f values,
     (f, values) ∈ calls_of (trace (run E n w)) ->
     (f, values) ∈ calls_of (trace w) \/ dom values = list_to_set (fields f)).
Proof.
  assert (Henv : forall w0 values w', read_enviro_values E w0 = (Ret values, w') ->
            dom values = list_to_set (fields Send_enviro)).
  { intros w0 values w' H.
    destruct (read_enviro_values_inv E w0 values w' H)
      as (temp & t & raw & p & h & data & ox & red & n & _ & _ & _ & _ & _ & _ & _ & _ & _ & ->).
    rewrite !dom_insert_L, dom_empty_L. simpl. set_solver. }
  assert (Hpm : forall w0 values w', read_pm_values E w0 = (Ret values, w') ->
            dom values = list_to_set (fields Send_pm)).
  { intros w0 values w' H.
    destruct (read_pm_values_inv E w0 values w' H) as (pm_values & ->).
    unfold store_pm. rewrite !dom_insert_L, dom_empty_L. simpl. set_solver. }
  split; [apply Henv|]. split; [apply Hpm|].
  induction n as [|n IH]; intros f values Hin; [left; assumption|].
  simpl run in Hin.
  pose proof (iteration_effect E (run E n w)) as H. cbn zeta in H.
  pose proof (measure_effect E (run E n w)) as Hm.
  destruct (measure E (run E n w)) as [[v|e] w1].
  2: { destruct H as (_ & _ & Hc & _). rewrite Hc in Hin. auto. }
  destruct Hm as (_ & _ & _ & _ & _ & _ & wa & wb & Ha & Hb).
  apply Henv in Ha. apply Hpm in Hb.
  destruct H as (_ & _ & H).
  assert (Hcases : (f, values) ∈ calls_of (trace (run E n w)) \/
                   (f, values) = (Send_pm, snd v) \/ (f, values) = (Send_enviro, fst v)).
  { destruct (pm_branch E (snd v) w1) as [[[]|e] w2].
    - destruct H as (_ & Hc & _). rewrite Hc in Hin.
      destruct (fgt (time_since_update w1) (float_lit 300 0));
        destruct (fgt (time_since_update2 w1) (float_lit 900 0));
        repeat rewrite ?elem_of_app, ?elem_of_cons, ?elem_of_nil in Hin; tauto.
    - destruct H as (_ & _ & Hc & _). rewrite Hc in Hin.
      repeat rewrite ?elem_of_app, ?elem_of_cons, ?elem_of_nil in Hin; tauto. }
  destruct Hcases as [Hold|[[= -> ->]|[= -> ->]]]; auto.
Qed.

Lemma readings_are_complete_witness :
  dom Fixtures.enviro_reading_ok = list_to_set (fields Send_enviro) /\
  dom Fixtures.pm_reading_ok = list_to_set (fields Send_pm).
Proof.
  split.
  - apply (proj1 (readings_are_complete Fixtures.healthy Fixtures.w0)
             Fixtures.enviro_reading_ok
             (snd (read_enviro_values Fixtures.healthy Fixtures.w0))).
    vm_compute. reflexivity.
  - apply (proj1 (proj2 (readings_are_complete Fixtures.healthy Fixtures.w0))
             Fixtures.pm_reading_ok
             (snd (read_pm_values Fixtures.healthy Fixtures.w0))).
    vm_compute. reflexivity.
Defined.

(** ** Rendering numbers *)

Lemma append_cons ch (a b : string) : String ch a +:+ b = String ch (a +:+ b).
Proof. reflexivity. Qed.

Lemma append_assoc (a b c : string) : (a +:+ b) +:+ c = a +:+ (b +:+ c).
Proof.
  induction a as [|ch a IH]; [reflexivity|]. rewrite !append_cons. now rewrite IH.
Qed.

Lemma length_append (a b : string) :
  String.length (a +:+ b) = (String.length a + String.length b)%nat.
Proof.
  induction a as [|ch a IH]; [reflexivity|]. rewrite append_cons. simpl. now rewrite IH.
Qed.

Lemma length_zeros k : String.length (zeros k) = k.
Proof. induction k as [|k IH]; simpl; [reflexivity | f_equal; exact IH]. Qed.

Lemma str_int_roundtrip z : int_of_str (str_int z) = Some z.
Proof.
  unfold int_of_str, str_int. rewrite NilZero.isi.
  - simpl. now rewrite DecimalZ.of_to.
  - destruct z; simpl; [discriminate | | discriminate].
    intros [= H]. now apply DecimalPos.Unsigned.to_uint_nonnil in H.
  - destruct z; simpl; [discriminate | discriminate |].
    intros [= H]. now apply DecimalPos.Unsigned.to_uint_nonnil in H.
Qed.

(** A non-negative integer prints as its digits, without sign. *)
Lemma str_int_nonneg q :
  0 <= q ->
  exists d, str_int q = NilEmpty.string_of_uint d /\ Z.of_uint d = q /\ d <> Nil.
Proof.
  intros Hq. destruct q as [|p|p]; [| |lia].
  - exists (D0 Nil). repeat split. discriminate.
  - exists (Pos.to_uint p). unfold str_int. simpl.
    pose proof (DecimalPos.Unsigned.to_uint_nonnil p) as Hnn.
    split; [|split; [|assumption]].
    + unfold NilZero.string_of_uint. now destruct (Pos.to_uint p).
    + unfold Z.of_uint. now rewrite DecimalPos.Unsigned.of_to.
Qed.

Lemma digits_value_zeros k d :
  digits_value (zeros k +:+ NilEmpty.string_of_uint d) = Some (Z.of_uint d).
Proof.
  unfold digits_value.
  assert (H : NilEmpty.uint_of_string (zeros k +:+ NilEmpty.string_of_uint d) =
              Some (Nat.iter k D0 d)).
  { induction k as [|k IH]; [apply NilEmpty.usu|].
    change (zeros (S k)) with (String "0" (zeros k)). rewrite append_cons.
    simpl. now rewrite IH. }
  rewrite H. simpl. f_equal. clear H. induction k as [|k IH]; [reflexivity | exact IH].
Qed.

Lemma digits_value_pair a b :
  0 <= a <= 9 -> 0 <= b <= 9 ->
  digits_value (String (digit_char a) (String (digit_char b) EmptyString)) =
  Some (10 * a + b).
Proof.
  intros Ha Hb.
  assert (Ea : a = 0 \/ a = 1 \/ a = 2 \/ a = 3 \/ a = 4 \/ a = 5 \/ a = 6 \/
               a = 7 \/ a = 8 \/ a = 9) by lia.
  assert (Eb : b = 0 \/ b = 1 \/ b = 2 \/ b = 3 \/ b = 4 \/ b = 5 \/ b = 6 \/
               b = 7 \/ b = 8 \/ b = 9) by lia.
  repeat (destruct Ea as [->|Ea]); try subst a;
    repeat (destruct Eb as [->|Eb]); try subst b; reflexivity.
Qed.

Lemma round_half_even_nearest num den :
  0 <= num -> 0 < den ->
  let n := round_half_even num den in
  0 <= n /\ 2 * Z.abs (num - n * den) <= den /\
  (2 * Z.abs (num - n * den) = den -> Z.even n = true).
Proof.
  intros Hnum Hden. unfold round_half_even.
  pose proof (Z.div_mod num den ltac:(lia)) as Hdm.
  pose proof (Z.mod_pos_bound num den Hden) as Hr.
  assert (Hq : 0 <= num / den) by (apply Z.div_pos; lia).
  set (q := num / den) in *. set (r := num mod den) in *.
  destruct (Z.compare_spec (2 * r) den) as [Heq|Hlt|Hgt]; cbn zeta.
  - destruct (Z.even q) eqn:Hev.
    + split; [lia|]. split; [nia|]. intros _. exact Hev.
    + split; [lia|]. split; [nia|]. intros _.
      rewrite Z.even_add, Hev. reflexivity.
  - split; [lia|]. split; [nia|]. intros H. nia.
  - split; [lia|]. split; [nia|]. intros H. nia.
Qed.

Lemma hundredths_nearest s m e :
  nearest_hundredths (S754_finite s m e) (hundredths m e).
Proof.
  unfold nearest_hundredths, hundredths. destruct e as [|p|p].
  - simpl. rewrite !Z.mul_1_r, Z.sub_diag. simpl. repeat split; lia.
  - replace (Z.max 0 (- Z.pos p)) with 0 by lia.
    rewrite Z.add_0_r, Z.pow_0_r, !Z.mul_1_r, Z.sub_diag.
    pose proof (Z.pow_pos_nonneg 2 (Z.pos p) ltac:(lia) ltac:(lia)).
    simpl Z.abs. repeat split; try lia.
  - replace (Z.max 0 (- Z.neg p)) with (Z.pos p) by lia.
    replace (Z.neg p + Z.pos p) with 0 by lia.
    rewrite Z.pow_0_r, Z.mul_1_r.
    apply round_half_even_nearest; [lia|].
    apply Z.pow_pos_nonneg; lia.
Qed.

Lemma pad5_fixed2 neg n :
  0 <= n -> fixed2_rendering neg n (pad5 neg (fixed2 n)).
Proof.
  intros Hn.
  assert (Hq : 0 <= n / 100) by (apply Z.div_pos; lia).
  destruct (str_int_nonneg (n / 100) Hq) as (d & Hstr & Hd & Hnn).
  set (frac := String (digit_char (n mod 100 / 10))
                 (String (digit_char (n mod 10)) EmptyString)).
  set (sign := if neg then "-" else EmptyString).
  set (k := (5 - String.length sign - String.length (fixed2 n))%nat).
  assert (Hfix : fixed2 n = str_int (n / 100) +:+ "." +:+ frac) by reflexivity.
  assert (Hpad : pad5 neg (fixed2 n) =
                 sign +:+ (zeros k +:+ str_int (n / 100)) +:+ "." +:+ frac).
  { unfold pad5. fold sign. fold k. rewrite Hfix, append_assoc. reflexivity. }
  assert (Hlen : String.length (pad5 neg (fixed2 n)) =
                 (String.length sign + k + String.length (fixed2 n))%nat).
  { unfold pad5. fold sign. fold k. rewrite !length_append, length_zeros. lia. }
  exists (zeros k +:+ str_int (n / 100)), frac.
  split; [exact Hpad|]. split; [reflexivity|].
  split; [rewrite Hstr, digits_value_zeros; now rewrite Hd|].
  split.
  { unfold frac. rewrite digits_value_pair.
    - f_equal. pose proof (Z.mod_pos_bound n 100 ltac:(lia)).
      rewrite <- (Z.mod_mod_divide n 100 10) by (exists 10; reflexivity).
      pose proof (Z.div_mod (n mod 100) 10 ltac:(lia)). lia.
    - pose proof (Z.mod_pos_bound n 100 ltac:(lia)).
      assert (n mod 100 / 10 < 10) by (apply Z.div_lt_upper_bound; lia).
      split; [apply Z.div_pos; lia | lia].
    - pose proof (Z.mod_pos_bound n 10 ltac:(lia)). lia. }
  split; [rewrite Hlen; unfold k; lia|].
  intros Hlong. rewrite Hlen in Hlong.
  assert (k = 0%nat) as -> by (unfold k in *; lia). reflexivity.
Qed.

(** What ["{:05.2f}"] prints for a finite float. *)
Lemma format_05_2f_finite x :
  is_finite x = true ->
  exists n, nearest_hundredths x n /\ fixed2_rendering (sign_bit x) n (format_05_2f x).
Proof.
  destruct x as [s|s| |s m e]; try discriminate; intros _.
  - exists 0. split; [reflexivity|]. apply (pad5_fixed2 s 0). lia.
  - exists (hundredths m e). split; [apply hundredths_nearest|].
    apply pad5_fixed2. pose proof (hundredths_nearest s m e) as H.
    unfold nearest_hundredths in H. tauto.
Qed.

(** A NaN or an infinity has no decimals to print. *)
Example not_a_number_prints_nan :
  format_05_2f S754_nan = "00nan" /\ format_05_2f (S754_infinity true) = "-0inf".
Proof. split; reflexivity. Qed.

Lemma py_int_truncates x z : py_int x = Ret z -> truncation_of x z.
Proof.
  destruct x as [s|s| |s m e]; simpl; try discriminate.
  - now intros [= <-].
  - intros [= <-]. unfold trunc_mag. destruct e as [|p|p].
    + simpl. rewrite !Z.mul_1_r. destruct s; simpl; lia.
    + replace (Z.max 0 (- Z.pos p)) with 0 by lia.
      rewrite Z.add_0_r, Z.pow_0_r, !Z.mul_1_r.
      pose proof (Z.pow_pos_nonneg 2 (Z.pos p) ltac:(lia) ltac:(lia)).
      destruct s; split; try lia; rewrite ?Z.abs_opp, Z.abs_eq; nia.
    + replace (Z.max 0 (- Z.neg p)) with (Z.pos p) by lia.
      replace (Z.neg p + Z.pos p) with 0 by lia.
      rewrite Z.pow_0_r, Z.mul_1_r.
      pose proof (Z.pow_pos_nonneg 2 (Z.pos p) ltac:(lia) ltac:(lia)) as Hpow.
      pose proof (Z.div_mod (Z.pos m) (2 ^ Z.pos p) ltac:(lia)) as Hdm.
      pose proof (Z.mod_pos_bound (Z.pos m) (2 ^ Z.pos p) Hpow) as Hr.
      assert (Hq : 0 <= Z.pos m / 2 ^ Z.pos p) by (apply Z.div_pos; lia).
      destruct s; split; try lia; rewrite ?Z.abs_opp, Z.abs_eq by lia; nia.
Qed.

(** ** The particulate sensor: one reset, one retry *)

Lemma numeral_of_str_int z : numeral_of z (Some (str_int z)).
Proof. split; [reflexivity|]. simpl. apply str_int_roundtrip. Qed.

Lemma store_pm_reading date pm :
  pm_reading_of date pm (store_pm (<["date" := date]> ∅) pm).
Proof.
  unfold pm_reading_of, store_pm. cbn zeta.
  repeat split; simplify_map_eq; try reflexivity; cbn; apply str_int_roundtrip.
Qed.

(** C3, as stated, fails.  The first read times out and the reset that
    follows fails in its turn: the error of the reset leaves
    [read_pm_values], and the retry read is never made. *)
Lemma reset_failure_counterexample :
  let E := Fixtures.board_reset_fails in
  let out := read_pm_values E Fixtures.w0 in
  pms_src E 0 = Raise Fixtures.serial_timeout /\
  transient Fixtures.serial_timeout = true /\
  fst out = Raise Fixtures.reset_error /\
  trace (snd out) =
    [PmsRead; Log INFO (Text "Failed to read PMS5003. Reseting and retrying."); PmsReset] /\
  calls (snd out) Pms = 1%nat.
Proof. vm_compute. repeat split. Qed.

(** C3, amended.  [read_pm_values] stamps the date and reads the sensor
    once.  When that read raises a timeout or checksum error it logs and
    resets the sensor exactly once.  When the reset returns it reads exactly
    once more: the reading made from the retry's answer is returned, or the
    retry's own error propagates with nothing further done.  When the reset
    raises, its error propagates and no retry read is made.  Any other error
    of the first read propagates at once, with no reset. *)
Theorem read_pm_values_retry_policy (E : Env) (w : World) :
  let n := calls w Pms in
  let k := calls w PmsResetPin in
  let date := now_src E (calls w Calendar) in
  let r := fst (read_pm_values E w) in
  let w' := snd (read_pm_values E w) in
  let retrying := Log INFO (Text "Failed to read PMS5003. Reseting and retrying.") in
  match pms_src E n with
  | Ret first =>
      (exists values, r = Ret values /\ pm_reading_of date first values) /\
      trace w' = trace w ++ [PmsRead] /\
      calls w' Pms = S n /\ calls w' PmsResetPin = k
  | Raise e =>
      if transient e then
        calls w' PmsResetPin = S k /\
        match reset_src E k with
        | Ret _ =>
            match pms_src E (S n) with
            | Ret second => exists values, r = Ret values /\ pm_reading_of date second values
            | Raise e2 => r = Raise e2
            end /\
            trace w' = trace w ++ [PmsRead; retrying; PmsReset; PmsRead] /\
            calls w' Pms = S (S n)
        | Raise e1 =>
            r = Raise e1 /\
            trace w' = trace w ++ [PmsRead; retrying; PmsReset] /\
            calls w' Pms = S n
        end
      else
        r = Raise e /\ trace w' = trace w ++ [PmsRead] /\
        calls w' Pms = S n /\ calls w' PmsResetPin = k
  end.
Proof.
  pose proof (store_pm_reading (now_src E (calls w Calendar))) as Hstore.
  unfold read_pm_values, strftime_now, pms5003_read, pms5003_reset, logging_info,
    try_except, bind, tick, emit, lift, ret, transient.
  cbn [calls trace with_calls with_trace fst snd].
  rewrite (bump_other Calendar Pms) by discriminate.
  destruct (pms_src E (calls w Pms)) as [first|e]; cbn [calls trace with_calls with_trace fst snd].
  - rewrite bump_same, !bump_other by discriminate. eauto 6.
  - destruct (isinstance e ReadTimeoutError || isinstance e ChecksumMismatchError);
      cbn [calls trace with_calls with_trace fst snd].
    + rewrite !(bump_other _ PmsResetPin) by discriminate.
      destruct (reset_src E (calls w PmsResetPin)) as [[]|e1];
        cbn [calls trace with_calls with_trace fst snd].
      * rewrite (bump_other PmsResetPin Pms), bump_same, (bump_other Calendar Pms)
          by discriminate.
        destruct (pms_src E (S (calls w Pms))) as [second|e2];
          cbn [calls trace with_calls with_trace fst snd];
          rewrite ?bump_same, ?bump_other by discriminate;
          rewrite <- !app_assoc; cbn [app]; eauto 8.
      * rewrite ?bump_same, ?bump_other by discriminate.
        rewrite <- !app_assoc; cbn [app]. auto.
    + rewrite bump_same, !bump_other by discriminate. auto.
Qed.

Example retry_returns_second_read :
  let E := Fixtures.board Fixtures.api 0
             (Fixtures.pms_script [Raise Fixtures.serial_timeout]) (Ret (Response true "OK")) in
  let out := read_pm_values E Fixtures.w0 in
  fst out = Ret Fixtures.pm_reading_ok /\
  trace (snd out) =
    [PmsRead; Log INFO (Text "Failed to read PMS5003. Reseting and retrying.");
     PmsReset; PmsRead].
Proof. vm_compute. split; reflexivity. Qed.

Example second_failure_propagates :
  let E := Fixtures.board Fixtures.api 0
             (Fixtures.pms_script [Raise Fixtures.bad_checksum; Raise Fixtures.serial_timeout])
             (Ret (Response true "OK")) in
  let out := read_pm_values E Fixtures.w0 in
  fst out = Raise Fixtures.serial_timeout /\
  trace (snd out) =
    [PmsRead; Log INFO (Text "Failed to read PMS5003. Reseting and retrying.");
     PmsReset; PmsRead].
Proof. vm_compute. split; reflexivity. Qed.

Example other_error_is_not_retried :
  let E := Fixtures.board Fixtures.api 0
             (Fixtures.pms_script [Raise Fixtures.serial_down]) (Ret (Response true "OK")) in
  let out := read_pm_values E Fixtures.w0 in
  fst out = Raise Fixtures.serial_down /\ trace (snd out) = [PmsRead].
Proof. vm_compute. split; reflexivity. Qed.

(** ** The enviro reading *)

Lemma get_cpu_temperature_inv E w cpu :
  fst (get_cpu_temperature E w) = Ret cpu ->
  exists temp t, cpu_src E (calls w CpuFile) = Ret temp /\
                 float_of_int temp = Ret t /\ cpu = fdiv t f1000.
Proof.
  unfold get_cpu_temperature, bind, tick, lift, ret. cbn [calls with_calls].
  destruct (cpu_src E (calls w CpuFile)) as [temp|] eqn:Htemp; [|discriminate].
  destruct (float_of_int temp) as [t|] eqn:Ht; [|discriminate].
  intros [= <-]. exists temp, t. repeat split. exact Ht.
Qed.

(** C4. Whenever [read_enviro_values] returns, its temperature field is
    ["{:05.2f}"] applied to [raw - (cpu - raw) / 2.25], computed in binary64
    from the raw sensor temperature and the CPU temperature read in that
    call.  When that value is finite, the field is a sign, an integer part,
    a point and exactly two decimals, denoting the hundredth nearest to the
    value; it is at least 5 characters wide and is padded with zeros, after
    the sign, only up to that width. *)
Theorem temperature_field (E : Env) (w w' : World) (values : reading) (cpu raw : float) :
  read_enviro_values E w = (Ret values, w') ->
  fst (get_cpu_temperature E w) = Ret cpu ->
  temperature_src E (calls w BmeTemperature) = Ret raw ->
  let comp_temp := fsub raw (fdiv (fsub cpu raw) comp_factor) in
  values !! "temperature" = Some (format_05_2f comp_temp) /\
  (is_finite comp_temp = true ->
   exists n, nearest_hundredths comp_temp n /\
             fixed2_rendering (sign_bit comp_temp) n (format_05_2f comp_temp)).
Proof.
  intros Hread Hcpu Hraw comp_temp. split; [|apply format_05_2f_finite].
  destruct (read_enviro_values_inv E w values w' Hread)
    as (temp & t & raw' & p & h & data & ox & red & n &
        Htemp & Ht & Hraw' & _ & _ & _ & _ & _ & _ & ->).
  destruct (get_cpu_temperature_inv E w cpu Hcpu) as (temp' & t' & Htemp' & Ht' & ->).
  rewrite Htemp in Htemp'. injection Htemp' as <-.
  rewrite Ht in Ht'. injection Ht' as <-.
  rewrite Hraw in Hraw'. injection Hraw' as <-.
  now simplify_map_eq.
Qed.

Lemma temperature_field_witness :
  Fixtures.enviro_reading_ok !! "temperature" = Some "16.11" /\
  exists n, nearest_hundredths (float_lit 4534874624782791 (-48)) n /\
            fixed2_rendering false n "16.11".
Proof.
  destruct (temperature_field Fixtures.healthy Fixtures.w0
              (snd (read_enviro_values Fixtures.healthy Fixtures.w0))
              Fixtures.enviro_reading_ok (float_lit 45 0) (float_lit 25 0))
    as [Hfield Hshape].
  - vm_compute. reflexivity.
  - vm_compute. reflexivity.
  - vm_compute. reflexivity.
  - split; [exact Hfield | exact (Hshape eq_refl)].
Defined.

(** C8. Whenever [read_enviro_values] returns, each gas field is the
    decimal numeral of an integer [z], and [z] is the binary64 quotient of
    the raw reading by 1000 truncated toward zero: it has the sign of the
    quotient and differs from it by less than one, toward zero. *)
Theorem gas_fields_truncate (E : Env) (w w' : World) (values : reading) (data : gas_reading) :
  read_enviro_values E w = (Ret values, w') ->
  gas_src E (calls w GasAdc) = Ret data ->
  forall name raw,
    (name, raw) ∈ [("oxidising", oxidising data); ("reducing", reducing data);
                   ("nh3", nh3 data)] ->
    exists z, truncation_of (fdiv raw f1000) z /\
              values !! name = Some (str_int z) /\
              int_of_str (str_int z) = Some z.
Proof.
  intros Hread Hgas name raw Hin.
  destruct (read_enviro_values_inv E w values w' Hread)
    as (temp & t & raw' & p & h & data' & ox & red & n &
        _ & _ & _ & _ & _ & Hgas' & Hox & Hred & Hn & ->).
  rewrite Hgas in Hgas'. injection Hgas' as <-.
  repeat rewrite ?elem_of_cons, ?elem_of_nil in Hin.
  destruct Hin as [[= -> ->]|[[= -> ->]|[[= -> ->]|[]]]].
  - exists ox. split; [now apply py_int_truncates|].
    split; [now simplify_map_eq | apply str_int_roundtrip].
  - exists red. split; [now apply py_int_truncates|].
    split; [now simplify_map_eq | apply str_int_roundtrip].
  - exists n. split; [now apply py_int_truncates|].
    split; [now simplify_map_eq | apply str_int_roundtrip].
Qed.

Lemma gas_fields_truncate_witness :
  exists z, truncation_of (fdiv (float_lit (-2500) 0) f1000) z /\
            Fixtures.enviro_reading_ok !! "nh3" = Some (str_int z) /\
            int_of_str (str_int z) = Some z.
Proof.
  apply (gas_fields_truncate Fixtures.healthy Fixtures.w0
           (snd (read_enviro_values Fixtures.healthy Fixtures.w0))
           Fixtures.enviro_reading_ok
           (GasReading (float_lit 49999 (-1)) (float_lit 731500 0) (float_lit (-2500) 0))).
  - vm_compute. reflexivity.
  - reflexivity.
  - apply list_elem_of_In. simpl. tauto.
Defined.

(** * Further properties *)

(** ** Requests built by the uploaders *)

Lemma posts_of_app tr1 tr2 : posts_of (tr1 ++ tr2) = posts_of tr1 ++ posts_of tr2.
Proof.
  induction tr1 as [|ev tr1 IH]; simpl; [reflexivity|].
  destruct ev; simpl; rewrite ?IH; reflexivity.
Qed.

Lemma first_missing_none values ks :
  first_missing values ks = None <-> forall k, k ∈ ks -> is_Some (values !! k).
Proof.
  unfold first_missing. induction ks as [|k ks IH]; simpl.
  - split; [intros _ k' Hin; inversion Hin | reflexivity].
  - destruct (values !! k) as [v|] eqn:Hk.
    + rewrite bool_decide_eq_false_2 by discriminate. rewrite IH. split.
      * intros H k' [->|Hin]%elem_of_cons; [rewrite Hk; eauto | auto].
      * intros H k' Hin. apply H. now right.
    + rewrite bool_decide_eq_true_2 by reflexivity. split; [discriminate|].
      intros H. destruct (H k) as [v Hv]; [now left|]. congruence.
Qed.

Lemma first_missing_some values ks k :
  first_missing values ks = Some k ->
  values !! k = None /\
  exists before after, ks = before ++ k :: after /\
                       forall k', k' ∈ before -> is_Some (values !! k').
Proof.
  unfold first_missing. induction ks as [|k0 ks IH]; simpl; [discriminate|].
  destruct (values !! k0) as [v|] eqn:Hk.
  - rewrite bool_decide_eq_false_2 by discriminate. intros H.
    destruct (IH H) as (Hnone & before & after & -> & Hbefore).
    split; [assumption|]. exists (k0 :: before), after. split; [reflexivity|].
    intros k' [->|Hin]%elem_of_cons; [rewrite Hk; eauto | auto].
  - rewrite bool_decide_eq_true_2 by reflexivity. intros [= <-].
    split; [assumption|]. exists [], ks. split; [reflexivity|].
    intros k' Hin. inversion Hin.
Qed.

Lemma body_of_first_missing f values w :
  body_of f values w =
  match first_missing values (fields f) with
  | Some k => (Raise (Exn KeyError ("'" +:+ k +:+ "'")), w)
  | None => (Ret (body_from values (fields f)), w)
  end.
Proof.
  unfold first_missing, body_from.
  destruct f; unfold body_of, pm_body, enviro_body, getitem, bind, ret, raise; cbn.
  - destruct (values !! "date"); cbn; [|reflexivity].
    destruct (values !! "pm1"); cbn; [|reflexivity].
    destruct (values !! "pm25"); cbn; [|reflexivity].
    destruct (values !! "pm10"); cbn; reflexivity.
  - destruct (values !! "date"); cbn; [|reflexivity].
    destruct (values !! "temperature"); cbn; [|reflexivity].
    destruct (values !! "pressure"); cbn; [|reflexivity].
    destruct (values !! "humidity"); cbn; [|reflexivity].
    destruct (values !! "oxidising"); cbn; [|reflexivity].
    destruct (values !! "reducing"); cbn; [|reflexivity].
    destruct (values !! "nh3"); cbn; reflexivity.
Qed.

Lemma transport_handler_message f e :
  isinstance e RequestException = true ->
  transport_handler (who f) e =
  Some (logging_warning (Text (transport_message f e)) ;; ret None)%py.
Proof.
  intros H. unfold transport_handler, transport_message.
  destruct (isinstance e ConnectionError); [reflexivity|].
  destruct (isinstance e Timeout); [reflexivity|].
  now rewrite H.
Qed.

(** An uploader with a base URL, spelled out. *)
Lemma run_uploader_with_base E f values w base :
  API_URL E = Some base ->
  run_uploader E f values w =
  match first_missing values (fields f) with
  | Some k => (Raise (Exn KeyError ("'" +:+ k +:+ "'")), entered f values w)
  | None =>
      let url := base +:+ endpoint f in
      let body := body_from values (fields f) in
      let w2 := posted url body (entered f values w) in
      match post_src E (calls w Http) url body with
      | Ret resp =>
          if ok resp then (Ret true, w2)
          else (Ret false, warned (failure_prefix f +:+ reason resp) w2)
      | Raise e =>
          if isinstance e RequestException
          then (Ret false, warned (transport_message f e) w2)
          else (Raise e, w2)
      end
  end.
Proof.
  intros Hbase. rewrite run_uploader_unfold.
  change (match f with Send_pm => "PM" | Send_enviro => "Enviro" end) with (who f).
  unfold entered, posted, warned.
  unfold bind, try_except, emit, requests_post, tick, lift, logging_warning, ret; cbn.
  rewrite Hbase; cbn. rewrite body_of_first_missing.
  destruct (first_missing values (fields f)) as [k|]; cbn.
  { rewrite transport_handler_other by reflexivity. reflexivity. }
  destruct (post_src E (calls w Http) (base +:+ endpoint f) (body_from values (fields f)))
    as [resp|e]; cbn.
  - destruct (ok resp); reflexivity.
  - destruct (isinstance e RequestException) eqn:He.
    + rewrite (transport_handler_message f e He). reflexivity.
    + rewrite transport_handler_other by assumption. reflexivity.
Qed.

(** X1. With a base URL, an uploader given a reading that lacks one of its
    fields raises the [KeyError] of the first missing field, in the order the
    request body lists them: it has posted nothing and logged nothing. *)
Theorem uploader_missing_key (E : Env) (f : uploader) (values : reading) (w : World)
    (base k0 : string) :
  API_URL E = Some base ->
  k0 ∈ fields f -> values !! k0 = None ->
  exists k before after,
    fields f = before ++ k :: after /\
    (forall k', k' ∈ before -> is_Some (values !! k')) /\
    values !! k = None /\
    fst (run_uploader E f values w) = Raise (Exn KeyError ("'" +:+ k +:+ "'")) /\
    trace (snd (run_uploader E f values w)) = trace w ++ [Call f values] /\
    calls (snd (run_uploader E f values w)) Http = calls w Http.
Proof.
  intros Hbase Hin Hnone.
  rewrite (run_uploader_with_base E f values w base Hbase).
  destruct (first_missing values (fields f)) as [k|] eqn:Hfm.
  - destruct (first_missing_some values (fields f) k Hfm)
      as (Hk & before & after & Hsplit & Hbefore).
    exists k, before, after. repeat split; assumption.
  - destruct (proj1 (first_missing_none values (fields f)) Hfm k0 Hin) as [v Hv].
    congruence.
Qed.

Lemma uploader_missing_key_witness :
  exists k before after,
    fields Send_pm = before ++ k :: after /\
    (forall k', k' ∈ before -> is_Some (Fixtures.date_only !! k')) /\
    Fixtures.date_only !! k = None /\
    fst (run_uploader Fixtures.healthy Send_pm Fixtures.date_only Fixtures.w0) =
      Raise (Exn KeyError ("'" +:+ k +:+ "'")) /\
    trace (snd (run_uploader Fixtures.healthy Send_pm Fixtures.date_only Fixtures.w0)) =
      trace Fixtures.w0 ++ [Call Send_pm Fixtures.date_only] /\
    calls (snd (run_uploader Fixtures.healthy Send_pm Fixtures.date_only Fixtures.w0)) Http =
      calls Fixtures.w0 Http.
Proof.
  apply (uploader_missing_key Fixtures.healthy Send_pm Fixtures.date_only Fixtures.w0
           "http://api.example" "pm25").
  - reflexivity.
  - apply list_elem_of_In. simpl. tauto.
  - vm_compute. reflexivity.
Defined.

Lemma body_from_insert_other values ks k v :
  k ∉ ks -> body_from (<[k := v]> values) ks = body_from values ks.
Proof.
  intros Hk. unfold body_from. apply map_ext_in. intros k' Hin.
  rewrite lookup_insert_ne; [reflexivity|].
  intros ->. apply Hk. now apply list_elem_of_In.
Qed.

Lemma first_missing_insert_other values ks k v :
  k ∉ ks -> first_missing (<[k := v]> values) ks = first_missing values ks.
Proof.
  intros Hk. unfold first_missing. induction ks as [|k' ks IH]; [reflexivity|].
  simpl. rewrite lookup_insert_ne by (intros ->; apply Hk; now left).
  rewrite IH; [reflexivity|]. intros Hin. apply Hk. now right.
Qed.

(** X2. With a base URL and a reading that has every field of the
    uploader, one call makes exactly one HTTP request: to the base URL
    followed by the endpoint of the uploader, with the fields of the uploader
    in their fixed order and the values of the reading.  Keys of the reading
    that the uploader does not list are not sent. *)
Theorem uploader_request (E : Env) (f : uploader) (values : reading) (w : World)
    (base : string) :
  API_URL E = Some base ->
  (forall k, k ∈ fields f -> is_Some (values !! k)) ->
  let url := base +:+ endpoint f in
  let body := body_from values (fields f) in
  posts_of (trace (snd (run_uploader E f values w))) = posts_of (trace w) ++ [(url, body)] /\
  calls (snd (run_uploader E f values w)) Http = S (calls w Http) /\
  forall k v, k ∉ fields f ->
    posts_of (trace (snd (run_uploader E f (<[k := v]> values) w))) =
    posts_of (trace w) ++ [(url, body)].
Proof.
  intros Hbase Hall url body.
  assert (Hone : forall values',
            first_missing values' (fields f) = None ->
            body_from values' (fields f) = body ->
            posts_of (trace (snd (run_uploader E f values' w))) =
              posts_of (trace w) ++ [(url, body)] /\
            calls (snd (run_uploader E f values' w)) Http = S (calls w Http)).
  { intros values' Hfm Hbody.
    rewrite (run_uploader_with_base E f values' w base Hbase), Hfm, Hbody.
    fold url. cbn zeta.
    destruct (post_src E (calls w Http) url body) as [resp|e];
      [destruct (ok resp) | destruct (isinstance e RequestException)];
      cbn [snd trace calls entered posted warned with_trace with_calls];
      rewrite !posts_of_app, bump_same; simpl; rewrite ?app_nil_r; split; reflexivity. }
  pose proof (proj2 (first_missing_none values (fields f)) Hall) as Hfm.
  destruct (Hone values Hfm eq_refl) as [Hposts Hhttp].
  split; [assumption|]. split; [assumption|].
  intros k v Hk. apply Hone.
  - now rewrite first_missing_insert_other.
  - now apply body_from_insert_other.
Qed.

Lemma uploader_request_witness :
  posts_of (trace (snd (run_uploader Fixtures.healthy Send_pm Fixtures.pm_reading_noisy
                          Fixtures.w0))) =
  [("http://api.example/air-quality", Fixtures.pm_body_ok)].
Proof.
  apply (proj2 (proj2 (uploader_request Fixtures.healthy Send_pm Fixtures.pm_reading_ok
                         Fixtures.w0 "http://api.example" eq_refl
                         ltac:(intros k Hk; apply list_elem_of_In in Hk; simpl in Hk;
                               repeat (destruct Hk as [<-|Hk]; [vm_compute; eauto|]);
                               destruct Hk)))
           "battery" "97").
  intros Hin. apply list_elem_of_In in Hin. simpl in Hin.
  repeat (destruct Hin as [Hin|Hin]; [discriminate|]). destruct Hin.
Defined.

(** X3. What the HTTP client raises that is not a request exception leaves
    the uploader unchanged: the request was made, the uploader has logged
    nothing and returns no value. *)
Theorem uploader_lets_other_errors_through (E : Env) (f : uploader) (values : reading)
    (w : World) (e : exn) :
  post_outcome E f values w = Some (Raise e) ->
  isinstance e RequestException = false ->
  fst (run_uploader E f values w) = Raise e /\
  exists url body,
    trace (snd (run_uploader E f values w)) = trace w ++ [Call f values; Post url body].
Proof.
  intros Hout He. pose proof (run_uploader_cases E f values w) as H.
  rewrite Hout in H. destruct H as (url & body & H). cbn zeta in H.
  rewrite He in H. rewrite H. split; [reflexivity|].
  exists url, body. simpl. now rewrite <- app_assoc.
Qed.

Lemma uploader_lets_other_errors_through_witness :
  fst (run_uploader (Fixtures.board_raising (Exn ValueError "Invalid header value"))
         Send_pm Fixtures.pm_reading_ok Fixtures.w0) =
  Raise (Exn ValueError "Invalid header value").
Proof.
  apply (uploader_lets_other_errors_through
           (Fixtures.board_raising (Exn ValueError "Invalid header value"))
           Send_pm Fixtures.pm_reading_ok Fixtures.w0).
  - vm_compute. reflexivity.
  - vm_compute. reflexivity.
Defined.

(** X4. The warning an uploader writes for a request exception is chosen
    by the first [except] clause that matches: a connection error, connect
    timeouts included, is reported as a connection error; any other timeout
    as a timeout; what remains as a request error.  The text ends with the
    message of the exception, and the uploader returns [False]. *)
Theorem uploader_transport_warning (E : Env) (f : uploader) (values : reading)
    (w : World) (e : exn) :
  post_outcome E f values w = Some (Raise e) ->
  isinstance e RequestException = true ->
  (exists url body,
     run_uploader E f values w =
     (Ret false, warned (transport_message f e) (posted url body (entered f values w)))) /\
  (isinstance e ConnectionError = true ->
   transport_message f e = "API " +:+ who f +:+ " Connection Error: " +:+ exn_str e) /\
  (isinstance e ConnectionError = false -> isinstance e Timeout = true ->
   transport_message f e = "API " +:+ who f +:+ " Timeout Error: " +:+ exn_str e) /\
  (isinstance e ConnectionError = false -> isinstance e Timeout = false ->
   transport_message f e = "API " +:+ who f +:+ " Request Error: " +:+ exn_str e) /\
  (exn_class e = ConnectTimeout -> isinstance e ConnectionError = true).
Proof.
  intros Hout He. split.
  - unfold post_outcome in Hout.
    destruct (API_URL E) as [base|] eqn:Hbase; [|discriminate].
    rewrite (run_uploader_with_base E f values w base Hbase).
    cbn [mbind option_bind] in Hout.
    destruct (first_missing values (fields f)) as [k|] eqn:Hfm.
    + exfalso. destruct (first_missing_some values (fields f) k Hfm) as (Hk & before & after & Hs & _).
      assert (Hnone : mapM (fun k => pair k <$> values !! k) (fields f) = None).
      { rewrite Hs. clear -Hk. induction before as [|b before IH]; cbn.
        - now rewrite Hk.
        - destruct (values !! b); cbn; [|reflexivity]. now rewrite IH. }
      rewrite Hnone in Hout. discriminate.
    + assert (Hsome : mapM (fun k => pair k <$> values !! k) (fields f) =
                      Some (body_from values (fields f))).
      { pose proof (proj1 (first_missing_none values (fields f)) Hfm) as Hall.
        clear Hfm Hout. revert Hall. unfold body_from.
        generalize (fields f). intros ks. induction ks as [|k ks IH]; intros Hall; [reflexivity|].
        cbn. destruct (Hall k) as [v Hv]; [now left|]. rewrite Hv. cbn.
        rewrite IH; [reflexivity|]. intros k' Hin. apply Hall. now right. }
      rewrite Hsome in Hout. cbn in Hout. injection Hout as Hout.
      cbn zeta. rewrite Hout, He. eauto.
  - unfold transport_message. repeat split.
    + now intros ->.
    + now intros -> ->.
    + now intros -> ->.
    + intros Hc. unfold isinstance. now rewrite Hc.
Qed.

Lemma uploader_transport_warning_witness :
  transport_message Send_enviro (Exn ConnectTimeout "connect timed out") =
  "API Enviro Connection Error: connect timed out".
Proof.
  apply (proj1 (proj2 (uploader_transport_warning
           (Fixtures.board_raising (Exn ConnectTimeout "connect timed out"))
           Send_enviro Fixtures.enviro_reading_ok Fixtures.w0
           (Exn ConnectTimeout "connect timed out") eq_refl eq_refl))).
  reflexivity.
Defined.

(** ** More on the readers *)

(** X5. Whenever [read_enviro_values] returns, its pressure and humidity
    fields are ["{:05.2f}"] applied to what the sensor returned for them in
    that call; for a finite value the field has a sign, an integer part, a
    point and exactly two decimals denoting the nearest hundredth, and is at
    least 5 characters wide. *)
Theorem pressure_humidity_fields (E : Env) (w w' : World) (values : reading)
    (pressure humidity : float) :
  read_enviro_values E w = (Ret values, w') ->
  pressure_src E (calls w BmePressure) = Ret pressure ->
  humidity_src E (calls w BmeHumidity) = Ret humidity ->
  values !! "pressure" = Some (format_05_2f pressure) /\
  values !! "humidity" = Some (format_05_2f humidity) /\
  (is_finite pressure = true ->
   exists n, nearest_hundredths pressure n /\
             fixed2_rendering (sign_bit pressure) n (format_05_2f pressure)) /\
  (is_finite humidity = true ->
   exists n, nearest_hundredths humidity n /\
             fixed2_rendering (sign_bit humidity) n (format_05_2f humidity)).
Proof.
  intros Hread Hp Hh.
  destruct (read_enviro_values_inv E w values w' Hread)
    as (temp & t & raw & p & h & data & ox & red & n &
        _ & _ & _ & Hp' & Hh' & _ & _ & _ & _ & ->).
  rewrite Hp in Hp'. injection Hp' as <-.
  rewrite Hh in Hh'. injection Hh' as <-.
  split; [now simplify_map_eq|]. split; [now simplify_map_eq|].
  split; apply format_05_2f_finite.
Qed.

Lemma pressure_humidity_fields_witness :
  Fixtures.enviro_reading_ok !! "pressure" = Some "1013.25" /\
  Fixtures.enviro_reading_ok !! "humidity" = Some "40.50".
Proof.
  destruct (pressure_humidity_fields Fixtures.healthy Fixtures.w0
              (snd (read_enviro_values Fixtures.healthy Fixtures.w0))
              Fixtures.enviro_reading_ok (float_lit 4053 (-2)) (float_lit 81 (-1)))
    as (Hp & Hh & _).
  - vm_compute. reflexivity.
  - reflexivity.
  - reflexivity.
  - split; [exact Hp | exact Hh].
Defined.

(** X6. Whenever [read_pm_values] returns, the reading carries the date
    taken at the start of the call and the three concentrations of the sensor
    read that succeeded (the first one, or else the retry), each written as a
    decimal numeral that parses back to the sensor's integer. *)
Theorem pm_fields_round_trip (E : Env) (w w' : World) (values : reading) :
  read_pm_values E w = (Ret values, w') ->
  exists pm,
    match pms_src E (calls w Pms) with
    | Ret first => pm = first
    | Raise _ => pms_src E (S (calls w Pms)) = Ret pm
    end /\
    values !! "date" = Some (now_src E (calls w Calendar)) /\
    values !! "pm1" ≫= int_of_str = Some (pm_1_0 pm) /\
    values !! "pm25" ≫= int_of_str = Some (pm_2_5 pm) /\
    values !! "pm10" ≫= int_of_str = Some (pm_10 pm).
Proof.
  assert (Hstore : forall pm,
    let values := store_pm (<["date" := now_src E (calls w Calendar)]> ∅) pm in
    values !! "date" = Some (now_src E (calls w Calendar)) /\
    values !! "pm1" ≫= int_of_str = Some (pm_1_0 pm) /\
    values !! "pm25" ≫= int_of_str = Some (pm_2_5 pm) /\
    values !! "pm10" ≫= int_of_str = Some (pm_10 pm)).
  { intros pm. unfold store_pm. cbn zeta.
    repeat split; simplify_map_eq; try reflexivity; cbn; apply str_int_roundtrip. }
  unfold read_pm_values, strftime_now, pms5003_read, pms5003_reset, logging_info,
    try_except, bind, tick, emit, lift, ret.
  cbn [calls trace with_calls with_trace].
  rewrite (bump_other Calendar Pms) by discriminate.
  destruct (pms_src E (calls w Pms)) as [first|e].
  { intros [= <- _]. exists first. split; [reflexivity | apply Hstore]. }
  destruct (_ || _); [|discriminate].
  cbn [calls trace with_calls with_trace fst snd].
  destruct (reset_src E _) as [[]|e1]; [|discriminate].
  cbn [calls trace with_calls with_trace fst snd].
  rewrite (bump_other PmsResetPin Pms), bump_same, bump_other by discriminate.
  destruct (pms_src E (S (calls w Pms))) as [second|e2]; [|discriminate].
  intros [= <- _]. exists second. split; [reflexivity | apply Hstore].
Qed.

Lemma pm_fields_round_trip_witness :
  exists pm,
    match pms_src Fixtures.healthy (calls Fixtures.w0 Pms) with
    | Ret first => pm = first
    | Raise _ => pms_src Fixtures.healthy (S (calls Fixtures.w0 Pms)) = Ret pm
    end /\
    Fixtures.pm_reading_ok !! "date" = Some (now_src Fixtures.healthy (calls Fixtures.w0 Calendar)) /\
    Fixtures.pm_reading_ok !! "pm1" ≫= int_of_str = Some (pm_1_0 pm) /\
    Fixtures.pm_reading_ok !! "pm25" ≫= int_of_str = Some (pm_2_5 pm) /\
    Fixtures.pm_reading_ok !! "pm10" ≫= int_of_str = Some (pm_10 pm).
Proof.
  apply (pm_fields_round_trip Fixtures.healthy Fixtures.w0
           (snd (read_pm_values Fixtures.healthy Fixtures.w0)) Fixtures.pm_reading_ok).
  vm_compute. reflexivity.
Defined.

(** X7. [read_enviro_values] stops at the first collaborator that fails and
    raises its error unchanged, without calling the ones that come later: a
    thermal-zone file that cannot be read, or holds an integer too large for
    a float, ends the call before any sensor is touched; a failing
    temperature read ends it before the date, pressure, humidity and gas
    reads; a failing pressure read before the humidity and gas reads.
    Nothing is logged in any of these cases. *)
Theorem read_enviro_values_fails_fast (E : Env) (w : World) (e : exn) :
  (cpu_src E (calls w CpuFile) = Raise e ->
   read_enviro_values E w = (Raise e, with_calls (bump CpuFile (calls w)) w)) /\
  (forall temp,
     cpu_src E (calls w CpuFile) = Ret temp -> float_of_int temp = Raise e ->
     read_enviro_values E w = (Raise e, with_calls (bump CpuFile (calls w)) w)) /\
  (forall temp t,
     cpu_src E (calls w CpuFile) = Ret temp -> float_of_int temp = Ret t ->
     temperature_src E (calls w BmeTemperature) = Raise e ->
     exists w',
       read_enviro_values E w = (Raise e, w') /\ trace w' = trace w /\
       forall d, calls w' d =
                 if bool_decide (d ∈ [CpuFile; BmeTemperature]) then S (calls w d)
                 else calls w d) /\
  (forall temp t raw,
     cpu_src E (calls w CpuFile) = Ret temp -> float_of_int temp = Ret t ->
     temperature_src E (calls w BmeTemperature) = Ret raw ->
     pressure_src E (calls w BmePressure) = Raise e ->
     exists w',
       read_enviro_values E w = (Raise e, w') /\ trace w' = trace w /\
       forall d, calls w' d =
                 if bool_decide (d ∈ [CpuFile; BmeTemperature; Calendar; BmePressure])
                 then S (calls w d) else calls w d).
Proof.
  split; [|split; [|split]].
  - intros H1. unfold read_enviro_values, get_cpu_temperature, bind, tick, lift.
    cbn [calls with_calls]. rewrite H1. reflexivity.
  - intros temp H1 H2. unfold read_enviro_values, get_cpu_temperature, bind, tick, lift.
    cbn [calls with_calls]. rewrite H1. cbn beta iota zeta. rewrite H2. reflexivity.
  - intros temp t H1 H2 H3.
    unfold read_enviro_values, get_cpu_temperature, bme280_get_temperature,
      bind, tick, lift, ret.
    repeat (cbn beta iota zeta; cbn [calls with_calls fst snd];
            repeat rewrite bump_other by discriminate;
            first [ rewrite H1 | rewrite H2 | rewrite H3 ]).
    cbn beta iota zeta. eexists. split; [reflexivity|]. split; [reflexivity|].
    intros d. cbn [calls with_calls]. unfold bump. destruct d; reflexivity.
  - intros temp t raw H1 H2 H3 H4.
    unfold read_enviro_values, get_cpu_temperature, bme280_get_temperature,
      bme280_get_pressure, strftime_now, bind, tick, lift, ret.
    repeat (cbn beta iota zeta; cbn [calls with_calls fst snd];
            repeat rewrite bump_other by discriminate;
            first [ rewrite H1 | rewrite H2 | rewrite H3 | rewrite H4 ]).
    cbn beta iota zeta. eexists. split; [reflexivity|]. split; [reflexivity|].
    intros d. cbn [calls with_calls]. unfold bump. destruct d; reflexivity.
Qed.

Lemma read_enviro_values_fails_fast_witness :
  read_enviro_values Fixtures.board_no_cpu_file Fixtures.w0 =
  (Raise (Exn OSError "[Errno 2] No such file or directory"),
   with_calls (bump CpuFile (calls Fixtures.w0)) Fixtures.w0).
Proof.
  apply (proj1 (read_enviro_values_fails_fast Fixtures.board_no_cpu_file Fixtures.w0
                  (Exn OSError "[Errno 2] No such file or directory"))).
  reflexivity.
Defined.

Lemma f1000_finite : f1000 = S754_finite false 8796093022208000 (-43).
Proof. vm_compute. reflexivity. Qed.

Lemma py_int_not_finite x :
  is_finite x = false ->
  exists e, py_int (fdiv x f1000) = Raise e /\
            exn_class e = (match x with S754_nan => ValueError | _ => OverflowError end).
Proof.
  rewrite f1000_finite. destruct x as [s|s| |s m e]; try discriminate; intros _.
  - eexists. split; reflexivity.
  - eexists. split; reflexivity.
Qed.

Lemma py_int_raises x e :
  py_int x = Raise e -> exn_class e = ValueError \/ exn_class e = OverflowError.
Proof.
  destruct x; simpl; try discriminate; intros [= <-]; simpl; auto.
Qed.

(** What the reader does once every collaborator has answered. *)
Lemma read_enviro_values_after_sensors E w temp t raw pressure humidity data :
  cpu_src E (calls w CpuFile) = Ret temp ->
  float_of_int temp = Ret t ->
  temperature_src E (calls w BmeTemperature) = Ret raw ->
  pressure_src E (calls w BmePressure) = Ret pressure ->
  humidity_src E (calls w BmeHumidity) = Ret humidity ->
  gas_src E (calls w GasAdc) = Ret data ->
  exists values : reading,
    fst (read_enviro_values E w) =
    match py_int (fdiv (oxidising data) f1000) with
    | Raise e => Raise e
    | Ret ox =>
        match py_int (fdiv (reducing data) f1000) with
        | Raise e => Raise e
        | Ret red =>
            match py_int (fdiv (nh3 data) f1000) with
            | Raise e => Raise e
            | Ret n =>
                Ret (<["nh3" := str_int n]> (<["reducing" := str_int red]>
                       (<["oxidising" := str_int ox]> values)))
            end
        end
    end.
Proof.
  intros Htemp Ht Hraw Hp Hh Hg.
  unfold read_enviro_values, get_cpu_temperature, bme280_get_temperature,
    bme280_get_pressure, bme280_get_humidity, gas_read_all, strftime_now,
    bind, tick, lift, ret.
  repeat (cbn beta iota zeta; cbn [calls with_calls fst snd];
          repeat rewrite bump_other by discriminate;
          first [ rewrite Htemp | rewrite Ht | rewrite Hraw | rewrite Hp | rewrite Hh
                | rewrite Hg ]).
  cbn beta iota zeta. eexists.
  destruct (py_int (fdiv (oxidising data) f1000)); cbn beta iota zeta; [|reflexivity].
  destruct (py_int (fdiv (reducing data) f1000)); cbn beta iota zeta; [|reflexivity].
  destruct (py_int (fdiv (nh3 data) f1000)); cbn beta iota zeta; reflexivity.
Qed.

(** X8. When every collaborator answers but one of the three gas values is
    a NaN or an infinity, [read_enviro_values] returns no reading: it raises
    the error of [int()], a [ValueError] or an [OverflowError]; and a NaN in
    the oxidising channel, the first converted, gives the [ValueError]. *)
Theorem gas_not_finite_raises (E : Env) (w : World) (temp : Z)
    (t raw pressure humidity : float) (data : gas_reading) :
  cpu_src E (calls w CpuFile) = Ret temp ->
  float_of_int temp = Ret t ->
  temperature_src E (calls w BmeTemperature) = Ret raw ->
  pressure_src E (calls w BmePressure) = Ret pressure ->
  humidity_src E (calls w BmeHumidity) = Ret humidity ->
  gas_src E (calls w GasAdc) = Ret data ->
  is_finite (oxidising data) && is_finite (reducing data) && is_finite (nh3 data) = false ->
  (exists e, fst (read_enviro_values E w) = Raise e /\
             (exn_class e = ValueError \/ exn_class e = OverflowError)) /\
  (oxidising data = S754_nan ->
   fst (read_enviro_values E w) =
   Raise (Exn ValueError "cannot convert float NaN to integer")).
Proof.
  intros Htemp Ht Hraw Hp Hh Hg Hbad.
  destruct (read_enviro_values_after_sensors E w temp t raw pressure humidity data
              Htemp Ht Hraw Hp Hh Hg) as (values & ->).
  split.
  - destruct (py_int (fdiv (oxidising data) f1000)) as [ox|e] eqn:Hox;
      [|eauto using py_int_raises].
    destruct (py_int (fdiv (reducing data) f1000)) as [red|e] eqn:Hred;
      [|eauto using py_int_raises].
    destruct (py_int (fdiv (nh3 data) f1000)) as [n|e] eqn:Hn;
      [|eauto using py_int_raises].
    exfalso.
    destruct (is_finite (oxidising data)) eqn:F1.
    2: { destruct (py_int_not_finite _ F1) as (e & He & _). congruence. }
    destruct (is_finite (reducing data)) eqn:F2.
    2: { destruct (py_int_not_finite _ F2) as (e & He & _). congruence. }
    destruct (is_finite (nh3 data)) eqn:F3; [discriminate|].
    destruct (py_int_not_finite _ F3) as (e & He & _). congruence.
  - intros ->. rewrite f1000_finite. reflexivity.
Qed.

Lemma gas_not_finite_raises_witness :
  fst (read_enviro_values
         (Fixtures.board_gas (GasReading S754_nan (float_lit 731500 0) (float_lit 2500 0)))
         Fixtures.w0) =
  Raise (Exn ValueError "cannot convert float NaN to integer").
Proof.
  apply (proj2 (gas_not_finite_raises
           (Fixtures.board_gas (GasReading S754_nan (float_lit 731500 0) (float_lit 2500 0)))
           Fixtures.w0 45000 (float_lit 45000 0) (float_lit 25 0) (float_lit 4053 (-2))
           (float_lit 81 (-1)) (GasReading S754_nan (float_lit 731500 0) (float_lit 2500 0))
           eq_refl ltac:(vm_compute; reflexivity) eq_refl eq_refl eq_refl eq_refl eq_refl)).
  reflexivity.
Defined.

(** ** More on the timer branches *)

Lemma branch_taken E f values w :
  fgt (tested f w) (float_lit (limit f) 0) = true ->
  branch E f values w =
  (sent <- run_uploader E f values ;;
   if sent : bool then logging_info (Text (report_ok f))
   else logging_warning (Text (report_failed f)))%py (stamped E f values w).
Proof.
  destruct f; simpl; intros H.
  - now rewrite (pm_branch_taken E values w H).
  - now rewrite (enviro_branch_taken E values w H).
Qed.

Lemma branch_skip E f values w :
  fgt (tested f w) (float_lit (limit f) 0) = false -> branch E f values w = (Ret tt, w).
Proof.
  destruct f; simpl; intros H; [now apply pm_branch_skip | now apply enviro_branch_skip].
Qed.

Lemma post_outcome_stamped E f values w :
  post_outcome E f values (stamped E f values w) = post_outcome E f values w.
Proof.
  unfold post_outcome, stamped. destruct f; cbn [calls with_update_time with_update_time2
    with_calls]; now rewrite bump_other by discriminate.
Qed.

Lemma warnings_app tr1 tr2 : warnings (tr1 ++ tr2) = warnings tr1 ++ warnings tr2.
Proof. apply List.filter_app. Qed.

(** X9. What a taken timer branch leaves in the log.  It first logs the
    reading and enters the uploader.  When the response is ok, the request
    is followed by one INFO line and no warning.  When the response is not
    ok, or the client raised a request exception, the request is followed
    by two warnings: the uploader's, then the loop's "Response: Failed".
    In these three cases the branch returns. *)
Theorem branch_log (E : Env) (f : uploader) (values : reading) (w : World) :
  fgt (tested f w) (float_lit (limit f) 0) = true ->
  let tr := trace w ++ [Log INFO (Repr values); Call f values] in
  (forall why,
     post_outcome E f values w = Some (Ret (Response true why)) ->
     exists url body w',
       branch E f values w = (Ret tt, w') /\
       trace w' = tr ++ [Post url body; Log INFO (Text (report_ok f))] /\
       warnings (trace w') = warnings (trace w)) /\
  (forall why,
     post_outcome E f values w = Some (Ret (Response false why)) ->
     exists url body w',
       branch E f values w = (Ret tt, w') /\
       trace w' = tr ++ [Post url body; Log WARNING (Text (failure_prefix f +:+ why));
                         Log WARNING (Text (report_failed f))]) /\
  (forall e,
     post_outcome E f values w = Some (Raise e) ->
     isinstance e RequestException = true ->
     exists url body msg w',
       branch E f values w = (Ret tt, w') /\
       trace w' = tr ++ [Post url body; Log WARNING (Text msg);
                         Log WARNING (Text (report_failed f))]).
Proof.
  intros Hdue tr. rewrite (branch_taken E f values w Hdue).
  pose proof (run_uploader_cases E f values (stamped E f values w)) as H.
  rewrite post_outcome_stamped in H.
  assert (Htr : trace (stamped E f values w) ++ [Call f values] = tr).
  { unfold tr, stamped. destruct f; cbn [trace with_update_time with_update_time2
      with_calls with_trace]; now rewrite <- app_assoc. }
  unfold bind. split; [|split].
  - intros why Hout. rewrite Hout in H. destruct H as (url & body & H).
    cbn zeta in H. rewrite H. cbn [ok]. cbn iota. exists url, body. eexists.
    split; [reflexivity|].
    unfold logging_info, emit, posted, entered.
    cbn [fst snd trace with_trace with_calls]. rewrite Htr.
    split; [now rewrite <- !app_assoc|].
    unfold tr. rewrite !warnings_app. simpl. now rewrite !app_nil_r.
  - intros why Hout. rewrite Hout in H. destruct H as (url & body & H).
    cbn zeta in H. rewrite H. cbn [ok reason]. cbn iota. exists url, body. eexists.
    split; [reflexivity|].
    unfold logging_warning, emit, warned, posted, entered.
    cbn [fst snd trace with_trace with_calls]. rewrite Htr.
    now rewrite <- !app_assoc.
  - intros e Hout He. rewrite Hout in H. destruct H as (url & body & H).
    cbn zeta in H. rewrite He in H. destruct H as [msg H]. rewrite H.
    exists url, body, msg. eexists. split; [reflexivity|].
    unfold logging_warning, emit, warned, posted, entered.
    cbn [fst snd trace with_trace with_calls]. rewrite Htr.
    now rewrite <- !app_assoc.
Qed.

Lemma branch_log_witness :
  exists url body w',
    branch (Fixtures.board Fixtures.api 1000 (fun _ => Fixtures.pm_ok)
              (Ret (Response false "Bad Gateway")))
      Send_pm Fixtures.pm_reading_ok Fixtures.w_due = (Ret tt, w') /\
    trace w' =
      (trace Fixtures.w_due ++
       [Log INFO (Repr Fixtures.pm_reading_ok); Call Send_pm Fixtures.pm_reading_ok]) ++
      [Post url body; Log WARNING (Text (failure_prefix Send_pm +:+ "Bad Gateway"));
       Log WARNING (Text (report_failed Send_pm))].
Proof.
  apply (proj1 (proj2 (branch_log
           (Fixtures.board Fixtures.api 1000 (fun _ => Fixtures.pm_ok)
              (Ret (Response false "Bad Gateway")))
           Send_pm Fixtures.pm_reading_ok Fixtures.w_due ltac:(vm_compute; reflexivity)))
           "Bad Gateway").
  vm_compute. reflexivity.
Defined.

(** ** Accounting for a pass *)

Lemma hushed_refl w : hushed w w.
Proof. reflexivity. Qed.

Lemma hushed_trans w1 w2 w3 : hushed w1 w2 -> hushed w2 w3 -> hushed w1 w3.
Proof. unfold hushed. congruence. Qed.

Lemma hushed_tick d : keeps hushed (tick d).
Proof. intros w. reflexivity. Qed.

Lemma hushed_emit ev : is_warning ev = false -> keeps hushed (emit ev).
Proof.
  intros H w. unfold hushed, emit. cbn [snd trace with_trace].
  rewrite warnings_app. simpl. rewrite H. apply app_nil_r.
Qed.

(** Walks down a straight-line computation that logs no warning. *)
Ltac hush_steps :=
  repeat first
    [ apply (keeps_bind hushed hushed_trans); [|intros ?]
    | apply (keeps_ret hushed hushed_refl)
    | apply (keeps_lift hushed hushed_refl)
    | apply hushed_tick
    | apply hushed_emit; reflexivity ].

Lemma hushed_read_enviro_values E : keeps hushed (read_enviro_values E).
Proof.
  unfold read_enviro_values, get_cpu_temperature, bme280_get_temperature,
    bme280_get_pressure, bme280_get_humidity, gas_read_all, strftime_now.
  hush_steps.
Qed.

Lemma hushed_read_pm_values E : keeps hushed (read_pm_values E).
Proof.
  unfold read_pm_values, strftime_now, pms5003_read, pms5003_reset, logging_info.
  hush_steps. apply (keeps_try hushed hushed_trans).
  - hush_steps.
  - intros e k Hk. destruct (_ || _); [|discriminate]. injection Hk as <-. hush_steps.
Qed.

Lemma measure_quiet_rest E w :
  calls (snd (measure E w)) Http = calls w Http /\
  hushed w (snd (measure E w)).
Proof.
  unfold measure, bind.
  pose proof (quiet_read_enviro_values E w) as (_ & Ha & _).
  pose proof (hushed_read_enviro_values E w) as Wa.
  destruct (read_enviro_values E w) as [[ev|e] wa]; cbn [snd] in *; [|auto].
  pose proof (quiet_read_pm_values E wa) as (_ & Hb & _).
  pose proof (hushed_read_pm_values E wa) as Wb.
  destruct (read_pm_values E wa) as [[pv|e] wb]; cbn [snd] in *.
  - unfold time_time, bind, tick, ret, hushed in *.
    cbn [snd calls trace with_calls with_time_since_update with_time_since_update2].
    rewrite !bump_other by discriminate. split; congruence.
  - unfold hushed in *. split; congruence.
Qed.

Lemma run_uploader_http E f values w :
  calls (snd (run_uploader E f values w)) Http =
  match post_outcome E f values w with
  | Some _ => S (calls w Http)
  | None => calls w Http
  end.
Proof.
  pose proof (run_uploader_cases E f values w) as H.
  destruct (post_outcome E f values w) as [[resp|e]|].
  - destruct H as (url & body & H). cbn zeta in H. rewrite H.
    destruct (ok resp); cbn [snd calls warned posted entered with_trace with_calls];
      apply bump_same.
  - destruct H as (url & body & H). cbn zeta in H.
    destruct (isinstance e RequestException).
    + destruct H as [msg ->]. cbn [snd calls warned posted entered with_trace with_calls].
      apply bump_same.
    + rewrite H. cbn [snd calls warned posted entered with_trace with_calls].
      apply bump_same.
  - destruct H as (e & -> & _). reflexivity.
Qed.

(** What a branch does to the counters of the HTTP client and of the clock. *)
Lemma branch_counters E f values w :
  let w' := snd (branch E f values w) in
  if fgt (tested f w) (float_lit (limit f) 0) then
    calls w' Clock = S (calls w Clock) /\
    (calls w Http <= calls w' Http <= S (calls w Http))%nat
  else w' = w.
Proof.
  cbn zeta. destruct (fgt (tested f w) (float_lit (limit f) 0)) eqn:Hdue.
  - rewrite (branch_taken E f values w Hdue). unfold bind.
    pose proof (run_uploader_http E f values (stamped E f values w)) as Hh.
    pose proof (run_uploader_effect E f values (stamped E f values w))
      as ((_ & _ & _ & _ & Hc) & _).
    rewrite post_outcome_stamped in Hh.
    assert (Hs : calls (stamped E f values w) Clock = S (calls w Clock) /\
                 calls (stamped E f values w) Http = calls w Http).
    { unfold stamped. destruct f; cbn [calls with_update_time with_update_time2 with_calls];
        rewrite bump_same, bump_other by discriminate; auto. }
    destruct Hs as [Hs1 Hs2]. rewrite Hs1 in Hc. rewrite Hs2 in Hh.
    destruct (run_uploader E f values (stamped E f values w)) as [[sent|e] w3];
      cbn [snd] in *.
    + assert (Hlog : forall l m, calls (snd (emit (Log l m) w3)) Clock = calls w3 Clock /\
                                 calls (snd (emit (Log l m) w3)) Http = calls w3 Http)
        by (intros; split; reflexivity).
      destruct sent; unfold logging_info, logging_warning;
        match goal with |- context [emit (Log ?l ?m) w3] => destruct (Hlog l m) as [-> ->] end;
        (split; [assumption|]); destruct (post_outcome E f values w); lia.
    + split; [assumption|]. destruct (post_outcome E f values w); lia.
  - now rewrite (branch_skip E f values w Hdue).
Qed.

Lemma due_pm_measured E w v w1 :
  measure E w = (Ret v, w1) ->
  due E Send_pm w = fgt (time_since_update w1) (float_lit 300 0).
Proof. intros Hm. unfold due, checked, pm_checked. now rewrite Hm. Qed.

Lemma due_enviro_measured E w v w1 :
  measure E w = (Ret v, w1) ->
  due E Send_enviro w =
  match pm_branch E (snd v) w1 with
  | (Ret _, _) => fgt (time_since_update2 w1) (float_lit 900 0)
  | (Raise _, _) => false
  end.
Proof.
  intros Hm. unfold due, checked, enviro_checked, bind. rewrite Hm.
  pose proof (pm_branch_effect E (snd v) w1) as (_ & _ & P3 & _).
  destruct (pm_branch E (snd v) w1) as [[[]|e] w2]; [|reflexivity].
  cbn [snd] in P3. simpl. now rewrite P3.
Qed.

Lemma iteration_counters E w :
  let w' := snd (iteration E w) in
  let spent := (sends_in E Send_pm w + sends_in E Send_enviro w)%nat in
  calls w' Clock =
    (calls w Clock + match pm_checked E w with Some _ => 2 | None => 0 end + spent)%nat /\
  (calls w Http <= calls w' Http <= calls w Http + spent)%nat.
Proof.
  cbn zeta. unfold sends_in.
  pose proof (iteration_cases E w) as Hit. unfold loop_body, bind in Hit.
  pose proof (measure_effect E w) as Hm.
  pose proof (measure_quiet_rest E w) as [Hh _].
  unfold pm_checked.
  destruct (measure E w) as [[v|e] w1] eqn:Em; cbn [snd] in Hh.
  2: { rewrite Hit.
       destruct Hm as ((_ & _ & _ & _ & Hc) & _).
       assert (due E Send_pm w = false) as ->
         by (unfold due, checked, pm_checked; now rewrite Em).
       assert (due E Send_enviro w = false) as ->
         by (unfold due, checked, enviro_checked, bind; now rewrite Em).
       destruct (isinstance e Exception); cbn [snd calls warned with_trace]; lia. }
  destruct Hm as (_ & _ & M3 & _ & _ & _ & _).
  rewrite (due_pm_measured E w v w1 Em), (due_enviro_measured E w v w1 Em).
  pose proof (branch_counters E Send_pm (snd v) w1) as Hp.
  cbn [branch tested limit] in Hp. cbn zeta in Hp.
  destruct (pm_branch E (snd v) w1) as [[[]|e] w2] eqn:Ep; cbn [snd] in Hp.
  - pose proof (branch_counters E Send_enviro (fst v) w2) as He.
    cbn [branch tested limit] in He. cbn zeta in He.
    pose proof (pm_branch_effect E (snd v) w1) as (_ & _ & P3 & _).
    rewrite Ep in P3. cbn [snd] in P3. rewrite P3 in He.
    assert (Hw' : calls (snd (iteration E w)) Clock =
                  calls (snd (enviro_branch E (fst v) w2)) Clock /\
                  calls (snd (iteration E w)) Http =
                  calls (snd (enviro_branch E (fst v) w2)) Http).
    { destruct (enviro_branch E (fst v) w2) as [[[]|e] w3]; rewrite Hit;
        [|destruct (isinstance e Exception)]; split; reflexivity. }
    destruct Hw' as [-> ->].
    destruct (fgt (time_since_update w1) (float_lit 300 0));
      destruct (fgt (time_since_update2 w1) (float_lit 900 0));
      repeat match goal with
             | H : _ /\ _ |- _ => destruct H
             | H : snd _ = _ |- _ => rewrite H
             | H : w2 = w1 |- _ => subst w2
             end; lia.
  - rewrite Hit.
    destruct (fgt (time_since_update w1) (float_lit 300 0)) eqn:Hdue.
    + destruct Hp as [? ?].
      destruct (isinstance e Exception); cbn [snd calls warned with_trace]; lia.
    + rewrite (pm_branch_skip E (snd v) w1 Hdue) in Ep. discriminate.
Qed.

(** X10. What a pass costs.  It consults the clock twice once both sensor
    reads have returned, once more for every send it attempts, and not at
    all when a read fails.  It makes at most one HTTP request per send it
    attempts, hence at most two, and none when nothing is sent. *)
Theorem pass_accounting (E : Env) (w : World) :
  let w' := snd (iteration E w) in
  let sent_before := (sends Send_pm (trace w) + sends Send_enviro (trace w))%nat in
  let sent_after := (sends Send_pm (trace w') + sends Send_enviro (trace w'))%nat in
  (calls w' Clock + sent_before =
   calls w Clock + match pm_checked E w with Some _ => 2 | None => 0 end + sent_after)%nat /\
  (calls w Http <= calls w' Http)%nat /\
  (calls w' Http + sent_before <= calls w Http + sent_after)%nat /\
  (sent_after <= sent_before + 2)%nat.
Proof.
  cbn zeta. destruct (iteration_counters E w) as [Hc Hh]. cbn zeta in Hc, Hh.
  destruct (iteration_summary E w Send_pm) as [Hp _].
  destruct (iteration_summary E w Send_enviro) as [He _].
  unfold sends_in in *. rewrite Hp, He.
  destruct (due E Send_pm w); destruct (due E Send_enviro w); lia.
Qed.

(** X11. A pass sends what it has just read.  The readings handed to the
    uploaders in a pass are the ones the two readers returned in that same
    pass, the air-quality one first when both are sent; a pass whose reads
    fail hands over nothing. *)
Theorem pass_sends_what_it_read (E : Env) (w : World) :
  let w' := snd (iteration E w) in
  match measure E w with
  | (Ret v, _) =>
      calls_of (trace w') =
        calls_of (trace w) ++
        (if due E Send_pm w then [(Send_pm, snd v)] else []) ++
        (if due E Send_enviro w then [(Send_enviro, fst v)] else []) /\
      exists wa wb, read_enviro_values E w = (Ret (fst v), wa) /\
                    read_pm_values E wa = (Ret (snd v), wb)
  | (Raise _, _) => calls_of (trace w') = calls_of (trace w)
  end.
Proof.
  cbn zeta. pose proof (iteration_effect E w) as H. cbn zeta in H.
  pose proof (measure_effect E w) as Hm.
  destruct (measure E w) as [[v|e] w1] eqn:Em.
  2: { now destruct H as (_ & _ & Hc & _). }
  destruct Hm as (_ & _ & _ & _ & _ & _ & Hreads). split; [|exact Hreads].
  rewrite (due_pm_measured E w v w1 Em), (due_enviro_measured E w v w1 Em).
  destruct H as (_ & _ & H).
  destruct (pm_branch E (snd v) w1) as [[[]|e] w2].
  - now destruct H as (_ & Hc & _).
  - destruct H as (-> & _ & Hc & _). now rewrite Hc.
Qed.

(** X12. A pass in which a sensor read fails changes nothing but the log:
    both timers and both elapsed-time globals keep their values, no
    uploader is entered, no HTTP request is made and the clock is not
    consulted.  The pass adds exactly one warning, which quotes the error of
    the read that failed, when that error derives from [Exception] and so
    reaches the handler; it adds none otherwise. *)
Theorem failed_read_pass (E : Env) (w w1 : World) (e : exn) :
  measure E w = (Raise e, w1) ->
  let w' := snd (iteration E w) in
  (fst (read_enviro_values E w) = Raise e \/
   exists enviro_values wa,
     read_enviro_values E w = (Ret enviro_values, wa) /\
     fst (read_pm_values E wa) = Raise e) /\
  warnings (trace w') =
    warnings (trace w) ++
    (if isinstance e Exception
     then [Log WARNING (Text ("Main Loop Exception: " +:+ exn_str e))]
     else []) /\
  update_time w' = update_time w /\ update_time2 w' = update_time2 w /\
  time_since_update w' = time_since_update w /\
  time_since_update2 w' = time_since_update2 w /\
  calls_of (trace w') = calls_of (trace w) /\
  calls w' Http = calls w Http /\ calls w' Clock = calls w Clock.
Proof.
  intros Hm. cbn zeta.
  pose proof (iteration_cases E w) as Hit. unfold loop_body, bind in Hit.
  pose proof (measure_effect E w) as Heff.
  pose proof (measure_quiet_rest E w) as [_ Hw].
  rewrite Hm in Hit, Heff, Hw. cbn [snd] in Hw. rewrite Hit.
  destruct Heff as ((H1 & H2 & H3 & H4 & H5) & H6 & H7).
  split.
  { revert Hm. unfold measure, bind.
    destruct (read_enviro_values E w) as [[ev|e1] wa]; [|intros [= -> _]; now left].
    right. exists ev, wa. split; [reflexivity|].
    destruct (read_pm_values E wa) as [[pv|e2] wb]; [discriminate|].
    now injection Hm as ->. }
  unfold hushed in Hw.
  destruct (isinstance e Exception);
    cbn [snd trace update_time update_time2 time_since_update time_since_update2 calls
         warned with_trace];
    rewrite ?warnings_app, ?calls_of_app, ?app_nil_r, Hw, ?app_nil_r;
    repeat split; assumption.
Qed.

Lemma failed_read_pass_witness :
  warnings (trace (snd (iteration Fixtures.board_no_cpu_file Fixtures.w0))) =
  [Log WARNING (Text "Main Loop Exception: [Errno 2] No such file or directory")].
Proof.
  apply (failed_read_pass Fixtures.board_no_cpu_file Fixtures.w0
           (snd (measure Fixtures.board_no_cpu_file Fixtures.w0))
           (Exn OSError "[Errno 2] No such file or directory")).
  vm_compute. reflexivity.
Defined.

Lemma due_checked E f w : due E f w = true -> pm_checked E w <> None.
Proof.
  unfold due, exceeds, checked, pm_checked, enviro_checked, bind.
  destruct f; destruct (measure E w) as [[v|e] w1]; discriminate.
Qed.

Lemma run_clock_mono E n w : (calls w Clock <= calls (run E n w) Clock)%nat.
Proof.
  induction n as [|n IH]; [reflexivity|]. simpl run.
  destruct (iteration_counters E (run E n w)) as [Hc _]. cbn zeta in Hc. lia.
Qed.

(** X13. A timer only ever holds the value it had before the loop started
    or a clock reading taken earlier in the run: nothing else is ever
    written to [update_time] or [update_time2]. *)
Theorem timers_hold_clock_readings (E : Env) (w : World) (n : nat) (f : uploader) :
  timer f (run E n w) = timer f w \/
  exists i, (calls w Clock <= i < calls (run E n w) Clock)%nat /\
            timer f (run E n w) = time_src E i.
Proof.
  induction n as [|n IH]; [now left|]. simpl run.
  destruct (iteration_summary E (run E n w) f) as [_ Ht].
  destruct (iteration_counters E (run E n w)) as [Hc _]. cbn zeta in Hc.
  pose proof (run_clock_mono E n w) as Hmono.
  destruct (due E f (run E n w)) eqn:Hdue.
  - right. exists (stamp_index E f (run E n w)). split; [|exact Ht].
    pose proof (due_checked E f (run E n w) Hdue) as Hsome.
    destruct (pm_checked E (run E n w)); [|congruence].
    unfold sends_in in Hc. unfold stamp_index.
    destruct f; [rewrite Hdue in Hc | rewrite Hdue in Hc];
      destruct (due E Send_pm (run E n w)); try discriminate;
      destruct (due E Send_enviro (run E n w)); try discriminate; lia.
  - rewrite Ht. destruct IH as [IH|(i & Hi & IH)]; [now left|].
    right. exists i. split; [lia | assumption].
Qed.

Lemma startup_clock E w : calls (snd (startup E w)) Clock = S (S (calls w Clock)).
Proof.
  unfold startup, time_time, logging_info, emit, bind, tick, ret. simpl.
  now rewrite !bump_same.
Qed.

(** X14. The first pass after start-up.  Start-up stamps the two timers
    with two successive clock readings, so the first pass compares each of
    its own two readings with the one taken two calls earlier: it sends a
    reading type only if the clock moved by more than the interval between
    these two readings, that is, while the sensors were being read. *)
Theorem first_pass_after_startup (E : Env) (w : World) (f : uploader) :
  let c := calls w Clock in
  let w0 := snd (startup E w) in
  let w' := snd (iteration E w0) in
  let moved :=
    match f with
    | Send_pm => fsub (time_src E (S (S c))) (time_src E c)
    | Send_enviro => fsub (time_src E (S (S (S c)))) (time_src E (S c))
    end in
  elapsed_since E f w0 = moved /\
  (sends f (trace w') = S (sends f (trace w0)) -> fgt moved (float_lit (limit f) 0) = true) /\
  (fgt moved (float_lit (limit f) 0) = false -> sends f (trace w') = sends f (trace w0)).
Proof.
  cbn zeta.
  assert (Hel : elapsed_since E f (snd (startup E w)) =
                match f with
                | Send_pm => fsub (time_src E (S (S (calls w Clock)))) (time_src E (calls w Clock))
                | Send_enviro =>
                    fsub (time_src E (S (S (S (calls w Clock))))) (time_src E (S (calls w Clock)))
                end).
  { destruct (startup_stamps E w) as (_ & H1 & H2 & _). cbn zeta in H1, H2.
    unfold elapsed_since. rewrite startup_clock, H1, H2. now destruct f. }
  destruct (iteration_summary E (snd (startup E w)) f) as [Hs _].
  pose proof (due_elapsed E f (snd (startup E w))) as Hdue.
  rewrite Hel in Hdue. split; [exact Hel|]. rewrite Hs.
  destruct (due E f (snd (startup E w))).
  - split; [auto|]. intros Hno. rewrite Hdue in Hno by reflexivity. discriminate.
  - split; [intros; lia | intros; lia].
Qed.

Lemma first_pass_after_startup_witness :
  sends Send_pm (trace (snd (iteration Fixtures.healthy
                               (snd (startup Fixtures.healthy Fixtures.w0))))) =
  sends Send_pm (trace (snd (startup Fixtures.healthy Fixtures.w0))).
Proof.
  apply (proj2 (proj2 (first_pass_after_startup Fixtures.healthy Fixtures.w0 Send_pm))).
  vm_compute. reflexivity.
Defined.

(** X15. When nothing is due, a pass does nothing beyond reading the two
    sensors and recomputing the two elapsed times: it ends in the world the
    measurements left, having logged no warning, entered no uploader, made
    no request and left both timers alone. *)
Theorem idle_pass (E : Env) (w w1 : World) (v : reading * reading) :
  measure E w = (Ret v, w1) ->
  fgt (time_since_update w1) (float_lit 300 0) = false ->
  fgt (time_since_update2 w1) (float_lit 900 0) = false ->
  iteration E w = (Ret tt, w1) /\
  warnings (trace w1) = warnings (trace w) /\
  calls_of (trace w1) = calls_of (trace w) /\
  calls w1 Http = calls w Http /\
  update_time w1 = update_time w /\ update_time2 w1 = update_time2 w.
Proof.
  intros Hm Hpm Hen.
  pose proof (iteration_cases E w) as Hit. unfold loop_body, bind in Hit.
  pose proof (measure_effect E w) as Heff.
  pose proof (measure_quiet_rest E w) as [Hh Hw].
  rewrite Hm in Hit, Heff, Hh, Hw. cbn [snd] in Hh, Hw.
  rewrite (pm_branch_skip E (snd v) w1 Hpm) in Hit.
  rewrite (enviro_branch_skip E (fst v) w1 Hen) in Hit.
  destruct Heff as (M1 & M2 & _ & M4 & _).
  repeat split; assumption.
Qed.

Lemma idle_pass_witness :
  iteration (Fixtures.board Fixtures.api 100 (fun _ => Fixtures.pm_ok)
               (Ret (Response true "OK"))) Fixtures.w0 =
  (Ret tt,
   snd (measure (Fixtures.board Fixtures.api 100 (fun _ => Fixtures.pm_ok)
                   (Ret (Response true "OK"))) Fixtures.w0)).
Proof.
  apply (idle_pass (Fixtures.board Fixtures.api 100 (fun _ => Fixtures.pm_ok)
                      (Ret (Response true "OK"))) Fixtures.w0 _
           (Fixtures.enviro_reading_ok, Fixtures.pm_reading_ok)).
  - vm_compute. reflexivity.
  - vm_compute. reflexivity.
  - vm_compute. reflexivity.
Defined.

(** ** A run without a base URL *)

Lemma unposted_refl w : unposted w w.
Proof. split; reflexivity. Qed.

Lemma unposted_trans w1 w2 w3 : unposted w1 w2 -> unposted w2 w3 -> unposted w1 w3.
Proof. unfold unposted. intuition congruence. Qed.

Lemma quiet_unposted_emit ev w :
  posts_of [ev] = [] -> unposted w (snd (emit ev w)).
Proof.
  intros H. unfold unposted, emit. cbn [snd trace calls with_trace].
  now rewrite posts_of_app, H, app_nil_r.
Qed.

Lemma unposted_tick d : d <> Http -> keeps unposted (tick d).
Proof.
  intros Hd w. unfold unposted, tick. cbn [snd trace calls with_calls].
  now rewrite bump_other.
Qed.

Lemma unposted_emit ev : posts_of [ev] = [] -> keeps unposted (emit ev).
Proof. intros H w. now apply quiet_unposted_emit. Qed.

(** Walks down a straight-line computation that makes no request. *)
Ltac unposted_steps :=
  repeat first
    [ apply (keeps_bind unposted unposted_trans); [|intros ?]
    | apply (keeps_ret unposted unposted_refl)
    | apply (keeps_lift unposted unposted_refl)
    | apply unposted_tick; discriminate
    | apply unposted_emit; reflexivity ].

Lemma unposted_read_enviro_values E : keeps unposted (read_enviro_values E).
Proof.
  unfold read_enviro_values, get_cpu_temperature, bme280_get_temperature,
    bme280_get_pressure, bme280_get_humidity, gas_read_all, strftime_now.
  unposted_steps.
Qed.

Lemma unposted_read_pm_values E : keeps unposted (read_pm_values E).
Proof.
  unfold read_pm_values, strftime_now, pms5003_read, pms5003_reset, logging_info.
  unposted_steps. apply (keeps_try unposted unposted_trans).
  - unposted_steps.
  - intros e k Hk. destruct (_ || _); [|discriminate]. injection Hk as <-.
    unposted_steps.
Qed.

Lemma unposted_measure E : keeps unposted (measure E).
Proof.
  unfold measure, time_time.
  apply (keeps_bind unposted unposted_trans); [apply unposted_read_enviro_values|intros ?].
  apply (keeps_bind unposted unposted_trans); [apply unposted_read_pm_values|intros ?].
  unposted_steps; intros w; split; reflexivity.
Qed.

(** Without a base URL a taken branch raises before any request. *)
Lemma branch_without_api_url E f values w :
  API_URL E = None ->
  if fgt (tested f w) (float_lit (limit f) 0) then
    branch E f values w = (Raise no_base, entered f values (stamped E f values w))
  else branch E f values w = (Ret tt, w).
Proof.
  intros Hurl. destruct (fgt (tested f w) (float_lit (limit f) 0)) eqn:Hdue.
  - rewrite (branch_taken E f values w Hdue). unfold bind.
    pose proof (run_uploader_cases E f values (stamped E f values w)) as H.
    unfold post_outcome in H. rewrite Hurl in H. cbn in H.
    destruct H as (e & -> & _ & He). now rewrite (He eq_refl).
  - now apply branch_skip.
Qed.

Lemma unposted_stamped E f values w :
  unposted w (entered f values (stamped E f values w)).
Proof.
  unfold unposted, entered, stamped.
  destruct f; cbn [trace calls with_trace with_calls with_update_time with_update_time2];
    rewrite !posts_of_app, bump_other by discriminate; simpl; now rewrite !app_nil_r.
Qed.

Lemma iteration_without_api_url E w :
  API_URL E = None ->
  unposted w (snd (iteration E w)) /\
  (due E Send_pm w = true \/ due E Send_enviro w = true ->
   exists w2, iteration E w =
              (Ret tt, warned ("Main Loop Exception: " +:+ exn_str no_base) w2)).
Proof.
  intros Hurl.
  pose proof (iteration_cases E w) as Hit. unfold loop_body, bind in Hit.
  pose proof (unposted_measure E w) as Hm.
  assert (Hwarn : forall msg w0, unposted w0 (warned msg w0)).
  { intros msg w0. unfold unposted, warned. cbn [trace calls with_trace].
    now rewrite posts_of_app, app_nil_r. }
  assert (Hnb : isinstance no_base Exception = true) by reflexivity.
  destruct (measure E w) as [[v|e] w1] eqn:Em; cbn [snd] in Hm.
  2: { rewrite Hit. split.
       - destruct (isinstance e Exception); cbn [snd];
           [eapply unposted_trans; [exact Hm | apply Hwarn] | exact Hm].
       - intros [Hd|Hd]; revert Hd; unfold due, checked, pm_checked, enviro_checked, bind;
         rewrite Em; discriminate. }
  rewrite (due_pm_measured E w v w1 Em), (due_enviro_measured E w v w1 Em).
  pose proof (branch_without_api_url E Send_pm (snd v) w1 Hurl) as Hp.
  cbn [branch tested limit] in Hp.
  destruct (fgt (time_since_update w1) (float_lit 300 0)) eqn:Hpm.
  - rewrite Hp in Hit |- *. rewrite Hnb in Hit. rewrite Hit. cbn [snd]. split.
    + eapply unposted_trans; [exact Hm|].
      eapply unposted_trans; [apply (unposted_stamped E Send_pm)| apply Hwarn].
    + intros _. eauto.
  - rewrite Hp in Hit |- *.
    pose proof (branch_without_api_url E Send_enviro (fst v) w1 Hurl) as He.
    cbn [branch tested limit] in He.
    destruct (fgt (time_since_update2 w1) (float_lit 900 0)) eqn:Hen.
    + rewrite He, Hnb in Hit. rewrite Hit. cbn [snd]. split.
      * eapply unposted_trans; [exact Hm|].
        eapply unposted_trans; [apply (unposted_stamped E Send_enviro)| apply Hwarn].
      * intros _. eauto.
    + rewrite He in Hit. rewrite Hit. cbn [snd]. split; [exact Hm|].
      intros [Hd|Hd]; discriminate.
Qed.

(** X16. Without [API_URL] the program never makes an HTTP request, however
    many passes it runs; and every pass in which a send is due ends in the
    handler of the loop, with the warning that quotes the [TypeError]. *)
Theorem no_api_url_never_posts (E : Env) (w : World) (n : nat) :
  API_URL E = None ->
  posts_of (trace (run E n w)) = posts_of (trace w) /\
  calls (run E n w) Http = calls w Http /\
  (due E Send_pm (run E n w) = true \/ due E Send_enviro (run E n w) = true ->
   exists w2,
     iteration E (run E n w) =
     (Ret tt, warned ("Main Loop Exception: " +:+ exn_str no_base) w2)).
Proof.
  intros Hurl.
  assert (Hrun : unposted w (run E n w)).
  { induction n as [|n IH]; [apply unposted_refl|]. simpl run.
    eapply unposted_trans; [exact IH|].
    apply (iteration_without_api_url E (run E n w) Hurl). }
  destruct Hrun as [H1 H2]. split; [assumption|]. split; [assumption|].
  apply (iteration_without_api_url E (run E n w) Hurl).
Qed.

Lemma no_api_url_never_posts_witness :
  posts_of (trace (run (Fixtures.board None 1000 (fun _ => Fixtures.pm_ok)
                          (Ret (Response true "OK"))) 3 Fixtures.w0)) = [] /\
  calls (run (Fixtures.board None 1000 (fun _ => Fixtures.pm_ok)
                (Ret (Response true "OK"))) 3 Fixtures.w0) Http = 0%nat.
Proof.
  destruct (no_api_url_never_posts
              (Fixtures.board None 1000 (fun _ => Fixtures.pm_ok) (Ret (Response true "OK")))
              Fixtures.w0 3 eq_refl) as (H1 & H2 & _).
  split; [exact H1 | exact H2].
Defined.
